(** * FAB training with a prioritised replay buffer: a shallow embedding

    Embedding of the training-loop protocol of
    [train/fab_train_with_buffer.py], of the optimizer construction of
    [examples/create_train_config.py], of the effective-sample-size
    diagnostic of [utils/train_and_eval.py] and of the double-well target
    of [target/double_well.py].

    Conventions.  JAX arrays of floats are idealised as lists of real
    numbers (rank-1 arrays) or as a shape with row-major data (arrays of
    arbitrary rank); rounding is not modelled.  Where NaN and the
    infinities matter (gradients, parameters and logged values) a float is
    a finite real, an infinity or NaN.  A Python exception (a
    failed [chex] assertion, a shape error of [jax.lax.scan], a [raise])
    is the value [None] of an [option].  Python dictionaries with string
    keys are [gmap string _]; [d.update(e)] is [e ∪ d], the entries of
    [e] winning.  The flow, the SMC sampler, the buffer and the optimizer
    are collaborators defined outside the files embedded here; they are
    fields of a record over which the training step is parametrised. *)

From stdpp Require Import gmap strings list.
From Stdlib Require Import Reals Lra ZArith Lia.

(** ** Rank-1 arrays of floats *)

Module Jnp.

Local Open Scope R_scope.

Definition vec := list R.

(** [jnp.sum] of a rank-1 array. *)
Definition sum (v : vec) : R := foldr Rplus 0 v.

(** [jnp.mean]: the sum divided by the number of entries.  Of an empty
    array [jnp.mean] is NaN; what is proved about the value of a mean is
    proved for non-empty arrays, or holds of both sides of an equation. *)
Definition mean (v : vec) : R := sum v / INR (length v).

(** NumPy broadcasting of a binary operation over two rank-1 arrays: equal
    lengths combine pointwise, a length-1 operand is stretched, anything
    else is a shape error. *)
Definition broadcast2 (f : R -> R -> R) (a b : vec) : option vec :=
  if decide (length a = length b) then Some (zip_with f a b)
  else match a, b with
       | [a0], _ => Some (map (f a0) b)
       | _, [b0] => Some (map (fun ai => f ai b0) a)
       | _, _ => None
       end.

(** A Python scalar times an array. *)
Definition scale (c : R) (v : vec) : vec := map (Rmult c) v.

(** [jnp.exp], pointwise. *)
Definition vexp (v : vec) : vec := map exp v.

(** [jnp.clip(v, a_max=c)]: only an upper bound is given. *)
Definition clip_max (c : R) (v : vec) : vec := map (fun x => Rmin x c) v.

(** Maximum of a non-empty rank-1 array ([0] stands for the empty one,
    which [softmax] below never inspects). *)
Definition vmax (v : vec) : R :=
  match v with
  | [] => 0
  | x :: xs => foldr Rmax x xs
  end.

(** [jax.nn.softmax] along the only axis: [exp (x - max x)] normalised by
    its sum. *)
Definition softmax (v : vec) : vec :=
  let unnormalized := map (fun x => exp (x - vmax v)) v in
  map (fun u => u / sum unnormalized) unnormalized.

End Jnp.

(** ** The FAB loss on buffer samples ([fab_loss_buffer_samples]) *)

Module FabLoss.

Local Open Scope R_scope.
Import Jnp.

Section Loss.

(** Flow parameters and sample arrays are opaque; [rank] gives the number
    of axes of a sample array. *)
Variables Params Array : Type.
Variable rank : Array -> nat.

(** [chex.assert_rank] and [chex.assert_equal_shape] on rank-1 arrays. *)
Definition assert_rank (x : Array) (r : nat) : option unit :=
  if decide (rank x = r) then Some tt else None.

Definition assert_equal_shape (a b : vec) : option unit :=
  if decide (length a = length b) then Some tt else None.

(** [jax.lax.stop_gradient] is the identity on values. *)
Definition stop_gradient (v : vec) : vec := v.

(** The source function.  [log_q_old] is a rank-1 array by its type, so
    [chex.assert_rank(log_q_old, 1)] always passes. *)
Definition fab_loss_buffer_samples
    (params : Params) (x : Array) (log_q_old : vec) (alpha : R)
    (log_q_fn_apply : Params -> Array -> vec) (w_adjust_clip : R)
    : option (R * (vec * vec)) :=
  _ ← assert_rank x 4;
  let log_q := log_q_fn_apply params x in
  d ← broadcast2 Rminus (stop_gradient log_q) log_q_old;
  let log_w_adjust := scale (1 - alpha) d in
  _ ← assert_equal_shape log_q log_w_adjust;
  let w_adjust := clip_max w_adjust_clip (vexp log_w_adjust) in
  Some (- mean (zip_with Rmult w_adjust log_q), (log_w_adjust, log_q)).

(** The loss as the specification words it, one buffer sample at a time:
    the clipped importance correction times the current log-density. *)
Definition spec_log_w_adjust (alpha : R) (log_q_current log_q_old : vec) : vec :=
  map (fun qs => (1 - alpha) * (qs.1 - qs.2)) (zip log_q_current log_q_old).

Definition spec_loss (alpha w_clip : R) (log_q_current log_q_old : vec) : R :=
  - mean (map (fun qs => Rmin (exp ((1 - alpha) * (qs.1 - qs.2))) w_clip * qs.1)
              (zip log_q_current log_q_old)).

End Loss.

End FabLoss.

(** ** Seeding the buffer ([init]) *)

Module Init.

Local Open Scope Z_scope.

(** Python's [//] on integers: floor division, an exception for a zero
    divisor. *)
Definition floordiv (a b : Z) : option Z :=
  if decide (b = 0) then None else Some (a / b).

(** [n_forward_pass = (buffer.min_lengtht_to_sample // batch_size) + 1]. *)
Definition n_forward_pass (min_length_to_sample batch_size : Z) : option Z :=
  q ← floordiv min_length_to_sample batch_size; Some (q + 1).

(** Leading dimension of the array handed to [buffer.init]:
    [n_forward_pass * batch_size]. *)
Definition n_seed_samples (min_length_to_sample batch_size : Z) : option Z :=
  n ← n_forward_pass min_length_to_sample batch_size; Some (n * batch_size).

(** Modelled from the spec: the admission test of the buffer's [init]
    operation, which belongs to the buffer library and is not part of the
    embedded files.  "Fails if the number of provided samples is less than
    the configured minimum fill length." *)
Definition buffer_init_underfull (n_samples min_length_to_sample : Z) : bool :=
  bool_decide (n_samples < min_length_to_sample).

End Init.

(** ** Gradient transformations ([optax]) and [get_optimizer_and_step_fn] *)

Module Optax.

Local Open Scope R_scope.

(** A float that is a number: finite or one of the two infinities.  Finite
    floats are idealised as reals, so rounding and overflow are not
    modelled. *)
Inductive number :=
| Finite (r : R)
| PosInf
| NegInf.

(** A float: a number, or NaN ([None]). *)
Definition fl := option number.
Definition NaN : fl := None.

Definition isnan (x : fl) : bool := bool_decide (x = None).

(** A pytree of float arrays, as the list of its leaves; parameters,
    gradients and updates all have this type. *)
Definition pytree := list (list fl).

(** The learning rate handed to the optimizer: a float, or a schedule,
    which gives the rate at every step count. *)
Inductive LearningRate :=
| ConstantLR (lr : R)
| Schedule (schedule : Z -> R).

Section Transformations.

(** State of the optimizer selected by name; opaque. *)
Variable BaseState : Type.

(** States of gradient transformations.  [TupleState] is the tuple that
    [optax.chain] keeps; [IgnoreNanOptState] is the class that
    [one_gradient_update] tests for with [isinstance].  It is declared in
    [utils/optimize.py], which is not among the embedded files: of its fields
    only [ignored_grads_count], the one the training step reads, is named. *)
Inductive OptState :=
| EmptyState
| ZeroNansState (found_nan : list bool)
| BaseOptState (s : BaseState)
| TupleState (states : list OptState)
| IgnoreNanOptState (ignored_grads_count : Z) (inner : OptState).

(** [optax.GradientTransformation]: a pair of functions. *)
Record GradientTransformation := {
  init : pytree -> OptState;
  update : pytree -> OptState -> pytree -> option (pytree * OptState)
}.

(** [optax.zero_nans()]: records per leaf whether a NaN was seen and
    replaces every NaN entry of the updates by zero. *)
Definition zero_nan_entry (x : fl) : fl := if isnan x then Some (Finite 0) else x.

Definition zero_nans : GradientTransformation := {|
  init params := ZeroNansState (map (fun _ => false) params);
  update updates opt_state params :=
    let opt_state := ZeroNansState (map (existsb isnan) updates) in
    let updates := map (map zero_nan_entry) updates in
    Some (updates, opt_state)
|}.

(** [optax.chain]: the transformations are applied in order, each one on
    the updates produced by the previous one; the state is the tuple of
    their states.  A state that is not a tuple of the right length is an
    error. *)
Fixpoint chain_update (ts : list GradientTransformation) (ss : list OptState)
    (updates params : pytree) : option (pytree * list OptState) :=
  match ts, ss with
  | [], [] => Some (updates, [])
  | t :: ts', s :: ss' =>
      '(updates, new_s) ← update t updates s params;
      '(updates, new_ss) ← chain_update ts' ss' updates params;
      Some (updates, new_s :: new_ss)
  | _, _ => None
  end.

Definition chain (ts : list GradientTransformation) : GradientTransformation := {|
  init params := TupleState (map (fun t => init t params) ts);
  update updates state params :=
    match state with
    | TupleState ss =>
        '(updates, new_ss) ← chain_update ts ss updates params;
        Some (updates, TupleState new_ss)
    | _ => None
    end
|}.

(** The fields of [OptimizerConfig] read by [get_optimizer_and_step_fn].
    [max_global_norm] is optional; the learning rates and the number of
    warm-up epochs are numbers, so the conversions [float(...)] and the
    product with [n_iter_per_epoch] do not raise. *)
Record OptimizerConfig := {
  use_schedule : bool;
  init_lr : R;
  peak_lr : R;
  end_lr : R;
  warmup_n_epoch : Z;
  max_global_norm : option R;
  optimizer_name : string
}.

(** Python truthiness of an optional float: [None] and [0.0] are false. *)
Definition truthy (x : option R) : bool :=
  match x with
  | None => false
  | Some r => if Req_dec_T r 0 then false else true
  end.

(** [optax.clip_by_global_norm], and [getattr(optax, name)]: [None] when
    [optax] has no attribute of that name; calling the attribute with the
    learning rate may raise in its turn ([None] again), as it does for an
    attribute that is not a function of one argument. *)
Variable clip_by_global_norm : R -> GradientTransformation.
Variable optax_getattr :
  string -> option (LearningRate -> option GradientTransformation).

(** [optax.warmup_cosine_decay_schedule(init_value, peak_value, end_value,
    warmup_steps, decay_steps)]: the schedule, or [None] when [optax]
    raises on these arguments.  It hands [decay_steps - warmup_steps] steps
    to the cosine part, which it rejects with [ValueError] unless that is
    positive; what else it rejects depends on the version of [optax]. *)
Variable warmup_cosine_decay_schedule : R -> R -> R -> Z -> Z -> option (Z -> R).

(** The list [grad_transforms] as it stands when it is handed to
    [optax.chain]. *)
Definition grad_transforms (optimizer_config : OptimizerConfig) (lr : LearningRate)
    : option (list GradientTransformation) :=
  let grad_transforms := [zero_nans] in
  let grad_transforms :=
    if truthy (max_global_norm optimizer_config) then
      let clipping_fn := clip_by_global_norm (default 0 (max_global_norm optimizer_config)) in
      grad_transforms ++ [clipping_fn]
    else grad_transforms in
  attribute ← optax_getattr (optimizer_name optimizer_config);
  t ← attribute lr;
  Some (grad_transforms ++ [t]).

Definition get_optimizer_and_step_fn (optimizer_config : OptimizerConfig)
    (n_iter_per_epoch total_n_epoch : Z)
    : option (GradientTransformation * LearningRate) :=
  lr ←
    (if use_schedule optimizer_config then
       schedule ←
         warmup_cosine_decay_schedule (init_lr optimizer_config) (peak_lr optimizer_config)
           (end_lr optimizer_config)
           (warmup_n_epoch optimizer_config * n_iter_per_epoch)
           (n_iter_per_epoch * total_n_epoch);
       Some (Schedule schedule)
     else Some (ConstantLR (init_lr optimizer_config)));
  ts ← grad_transforms optimizer_config lr;
  let optimizer := chain ts in
  Some (optimizer, lr).

End Transformations.

Arguments EmptyState {BaseState}.
Arguments ZeroNansState {BaseState}.
Arguments BaseOptState {BaseState}.
Arguments TupleState {BaseState}.
Arguments IgnoreNanOptState {BaseState}.
Arguments init {BaseState}.
Arguments update {BaseState}.
Arguments zero_nans {BaseState}.
Arguments chain {BaseState}.
Arguments chain_update {BaseState}.

(** Addition of floats: NaN is absorbing, and the sum of the two
    infinities is NaN. *)
Definition fl_add (p u : fl) : fl :=
  match p, u with
  | Some (Finite a), Some (Finite b) => Some (Finite (a + b))
  | Some PosInf, Some NegInf | Some NegInf, Some PosInf => NaN
  | Some PosInf, Some _ | Some _, Some PosInf => Some PosInf
  | Some NegInf, Some _ | Some _, Some NegInf => Some NegInf
  | _, _ => NaN
  end.

(** [optax.apply_updates]: leafwise addition. *)

Definition apply_updates (params updates : pytree) : pytree :=
  zip_with (zip_with fl_add) params updates.

(** [jnp.log] on a float: NaN below zero, minus infinity at zero. *)
Definition fl_log (x : fl) : fl :=
  match x with
  | Some (Finite r) =>
      if Rlt_dec r 0 then NaN
      else if Req_dec_T r 0 then Some NegInf
      else Some (Finite (ln r))
  | Some PosInf => Some PosInf
  | Some NegInf => NaN
  | None => NaN
  end.

(** [jnp.log10] on a float. *)
Definition fl_log10 (x : fl) : fl :=
  match fl_log x with
  | Some (Finite l) => Some (Finite (l / ln 10))
  | y => y
  end.

End Optax.

(** ** The FAB training step ([build_fab_with_buffer_init_step_fns]) *)

Module Train.

Local Open Scope R_scope.
Import Jnp Optax.

(** A value logged in the diagnostics dictionary. *)
Inductive metric :=
| MFloat (x : fl)
| MInt (n : Z).

(** [Info = dict]. *)
Abbreviation Info := (gmap string metric).

(** [d.update(e)]. *)
Definition dict_update (d e : Info) : Info := e ∪ d.

(** Result of one SMC forward pass, in the order of the returned tuple. *)
Record SmcOutput {Array SMCState : Type} := {
  sample_flow : Array;
  x_smc : Array;
  log_w : vec;
  log_q : vec;
  smc_state_out : SMCState;
  smc_info : Info
}.
Arguments SmcOutput : clear implicits.

(** Everything [build_fab_with_buffer_init_step_fns] closes over: its
    arguments and the functions it obtains from modules that are not part
    of the embedded files. *)
Record Env := {
  Key : Type;
  Array : Type;
  SMCState : Type;
  BufferState : Type;
  BaseState : Type;
  (** number of axes of a sample array *)
  rank : Array -> nat;
  (** [jax.random.split(key)], two keys *)
  split : Key -> Key * Key;
  (** [unflatten] and [flow_log_prob_apply] of [flat_log_prob_components] *)
  unflatten : Array -> Array;
  flow_log_prob_apply : pytree -> Array -> vec;
  (** gradient part of [jax.value_and_grad(fab_loss_buffer_samples)] *)
  fab_loss_grad : pytree -> Array -> vec -> pytree;
  (** [optax.global_norm] and [jnp.max(ravel_pytree(.)[0])] *)
  global_norm : pytree -> fl;
  ravel_max : pytree -> fl;
  optimizer : GradientTransformation BaseState;
  (** whether two carries of the scan over the gradient updates, each a pair
      of parameters and optimizer state, have the same type: the same tree
      structure, shapes and dtypes *)
  same_carry_type : pytree * OptState BaseState -> pytree * OptState BaseState -> bool;
  (** [smc_forward(params, smc_state, key, unflatten_output=False)] *)
  smc_forward : pytree -> SMCState -> Key -> SmcOutput Array SMCState;
  (** [buffer.sample_n_batches(key, buffer_state, batch_size, n_batches)]:
      samples, stored log-densities and indices, one entry per batch *)
  sample_n_batches : Key -> BufferState -> Z -> nat ->
                     list Array * list vec * list (list nat);
  (** [buffer.adjust(log_q, log_w_adjustment, indices, buffer_state)] *)
  adjust : vec -> vec -> list nat -> BufferState -> BufferState;
  (** [buffer.add(x, log_w, log_q, buffer_state)] *)
  add : Array -> vec -> vec -> BufferState -> BufferState;
  batch_size : Z;
  n_updates_per_smc_forward_pass : nat;
  alpha : R;
  w_adjust_clip : R
}.

(** The iteration of [jax.lax.scan(f, init, xs)] over a list of inputs: the
    carry is threaded from one call to the next and the outputs are
    stacked. *)
Fixpoint scan_loop {C X Y : Type} (f : C -> X -> option (C * Y)) (c : C) (xs : list X)
    : option (C * list Y) :=
  match xs with
  | [] => Some (c, [])
  | x :: xs' =>
      '(c, y) ← f c x;
      '(c, ys) ← scan_loop f c xs';
      Some (c, y :: ys)
  end.

(** [jax.lax.scan] also demands that [f] returns a carry of the type of
    the carry it is given, and raises [TypeError] otherwise: [scan_typed] is
    [scan_loop] with that check at every call.  (JAX makes the check once,
    on the traced [f], and traces [f] also when there is no input; without
    input the model returns the initial carry.) *)
Fixpoint scan_typed {C X Y : Type} (same_type : C -> C -> bool)
    (f : C -> X -> option (C * Y)) (c : C) (xs : list X) : option (C * list Y) :=
  match xs with
  | [] => Some (c, [])
  | x :: xs' =>
      '(new_c, y) ← f c x;
      if same_type c new_c then
        '(c, ys) ← scan_typed same_type f new_c xs';
        Some (c, y :: ys)
      else None
  end.

(** [jax.lax.scan(f, init=init, xs=(xs1, xs2), length=n)]: both arrays of
    [xs] must have leading dimension [n]. *)
Definition scan {C X1 X2 Y : Type} (same_type : C -> C -> bool)
    (f : C -> X1 * X2 -> option (C * Y)) (init : C)
    (xs : list X1 * list X2) (n : nat) : option (C * list Y) :=
  if decide (length xs.1 = n ∧ length xs.2 = n)
  then scan_typed same_type f init (zip xs.1 xs.2)
  else None.

Section Step.

Variable E : Env.

Record TrainStateWithBuffer := {
  params : pytree;
  key : Key E;
  opt_state : OptState (BaseState E);
  smc_state : SMCState E;
  buffer_state : BufferState E
}.

Definition one_gradient_update
    (carry : pytree * OptState (BaseState E)) (xs : Array E * vec)
    : option ((pytree * OptState (BaseState E)) * (Info * vec * vec)) :=
  let '(flow_params, opt_state) := carry in
  let '(x, log_q_old) := xs in
  let info : Info := ∅ in
  let x := unflatten E x in
  '(loss, (log_w_adjust, log_q)) ←
    FabLoss.fab_loss_buffer_samples _ _ (rank E) flow_params x log_q_old (alpha E)
      (flow_log_prob_apply E) (w_adjust_clip E);
  let grad := fab_loss_grad E flow_params x log_q_old in
  '(updates, new_opt_state) ← update (optimizer E) grad opt_state flow_params;
  let new_params := apply_updates flow_params updates in
  let grad_norm := global_norm E grad in
  let info := dict_update info {[ "loss" := MFloat (Some (Finite loss)) ]} in
  let info := dict_update info {[ "log10_grad_norm" := MFloat (fl_log10 grad_norm) ]} in
  let info := dict_update info
                {[ "log10_max_param_grad" := MFloat (fl_log (ravel_max E grad)) ]} in
  let info :=
    match opt_state with
    | IgnoreNanOptState ignored_grads_count _ =>
        dict_update info {[ "ignored_grad_count" := MInt ignored_grads_count ]}
    | _ => info
    end in
  Some ((new_params, new_opt_state), (info, log_w_adjust, log_q)).

(** [jax.tree_map(lambda x: x[i], infos)]: [scan] stacks the dictionaries
    returned by the iterations leaf by leaf, and indexing every leaf at
    [i] gives back the dictionary of iteration [i]. *)
Definition tree_index (infos : list Info) (i : nat) : Info :=
  default ∅ (infos !! i).

(** [for i in range(n): info.update(jax.tree_map(lambda x: x[i], infos))]. *)
Definition update_info_loop (info : Info) (infos : list Info) (n : nat) : Info :=
  foldl (fun info i => dict_update info (tree_index infos i)) info (seq 0 n).

(** The body of [step]: what a call computes when the decorators let it
    through.  The decorated function is [step_jit] below. *)
Definition step (state : TrainStateWithBuffer)
    : option (TrainStateWithBuffer * Info) :=
  let info : Info := ∅ in
  (* Sample from buffer. *)
  let '(key, subkey) := split E (key state) in
  let '(x_buffer, log_q_old_buffer, indices) :=
    sample_n_batches E subkey (buffer_state state) (batch_size E)
      (n_updates_per_smc_forward_pass E) in
  (* Perform sgd steps on flow. *)
  '((new_flow_params, new_opt_state), outs) ←
    scan (same_carry_type E) one_gradient_update (params state, opt_state state)
      (x_buffer, log_q_old_buffer) (n_updates_per_smc_forward_pass E);
  let infos := outs.*1.*1 in
  let log_w_adjust := outs.*1.*2 in
  let log_q_old := outs.*2 in
  (* Adjust samples in the buffer. *)
  let buffer_state :=
    adjust E (concat log_q_old) (concat log_w_adjust) (concat indices)
      (buffer_state state) in
  (* Update info. *)
  let info := update_info_loop info infos (n_updates_per_smc_forward_pass E) in
  (* Run smc and add samples to the buffer, with the flow params before
     they were updated. *)
  let '(key, subkey) := split E key in
  let out := smc_forward E (params state) (smc_state state) subkey in
  let info := dict_update info (smc_info out) in
  let buffer_state := add E (x_smc out) (log_w out) (log_q out) buffer_state in
  let new_state := {| params := new_flow_params; key := key;
                      opt_state := new_opt_state;
                      smc_state := smc_state_out out;
                      buffer_state := buffer_state |} in
  Some (new_state, info).

(** *** Vocabulary for the statements about [step] *)

(** One optimizer step on a batch, without the bookkeeping: the carry that
    [one_gradient_update] hands to the next iteration. *)
Definition gradient_step
    (carry : pytree * OptState (BaseState E)) (b : Array E * vec)
    : option (pytree * OptState (BaseState E)) :=
  let x := unflatten E b.1 in
  let grad := fab_loss_grad E carry.1 x b.2 in
  '(updates, new_opt_state) ← update (optimizer E) grad carry.2 carry.1;
  Some (apply_updates carry.1 updates, new_opt_state).

(** Parameters and optimizer state as they stand before the update on batch
    number [i] (counting from zero), that is after the updates on the first
    [i] batches. *)
Definition carry_before (carry : pytree * OptState (BaseState E))
    (batches : list (Array E * vec)) (i : nat)
    : option (pytree * OptState (BaseState E)) :=
  foldl (fun c b => c ← c; gradient_step c b) (Some carry) (take i batches).

(** The keys drawn by the two calls of [jax.random.split] in [step]. *)
Definition sampling_key (state : TrainStateWithBuffer) : Key E :=
  (split E (key state)).2.

Definition smc_key (state : TrainStateWithBuffer) : Key E :=
  (split E (split E (key state)).1).2.

(** What [buffer.sample_n_batches] returns on the buffer state with which
    the step starts. *)
Definition sampled (state : TrainStateWithBuffer)
    : list (Array E) * list vec * list (list nat) :=
  sample_n_batches E (sampling_key state) (buffer_state state) (batch_size E)
    (n_updates_per_smc_forward_pass E).

Definition sampled_batches (state : TrainStateWithBuffer) : list (Array E * vec) :=
  zip (sampled state).1.1 (sampled state).1.2.

Definition sampled_indices (state : TrainStateWithBuffer) : list (list nat) :=
  (sampled state).2.

(** The SMC forward pass on the parameters and SMC state with which the
    step starts. *)
Definition smc_pass_at_start (state : TrainStateWithBuffer)
    : SmcOutput (Array E) (SMCState E) :=
  smc_forward E (params state) (smc_state state) (smc_key state).

End Step.

Arguments params {E}.
Arguments key {E}.
Arguments opt_state {E}.
Arguments smc_state {E}.
Arguments buffer_state {E}.

(** What the decorators of [step] keep between calls.  [trace_count] is the
    entry of the counter that [chex.assert_max_traces] keeps at module level
    under the name of the decorated function: it outlives the function and
    is shared by all the [step] functions built in the process.
    [jit_cache] holds the argument signatures (tree structure, shapes and
    dtypes) for which [jax.jit] has compiled code; it belongs to one built
    function. *)
Record Runtime {Sig : Type} := {
  trace_count : nat;
  jit_cache : list Sig
}.
Arguments Runtime : clear implicits.

(** What a newly built [step] starts from: the counter as it stands, and
    an empty cache. *)
Definition rebuilt {Sig : Type} (rt : Runtime Sig) : Runtime Sig :=
  {| trace_count := trace_count rt; jit_cache := [] |}.

Section Decorators.

Variable E : Env.
Variable Sig : Type.
Context `{EqDecision Sig}.

(** The signature under which [jax.jit] files a training state. *)
Variable signature : TrainStateWithBuffer E -> Sig.

(** [chex.assert_max_traces(4)(step)], called while tracing: the counter is
    incremented first and [AssertionError] is raised when it exceeds 4. *)
Definition step_counted (count : nat) (state : TrainStateWithBuffer E)
    : nat * option (TrainStateWithBuffer E * Info) :=
  let count := S count in
  if decide (4 < count)%nat then (count, None) else (count, step E state).

(** [jax.jit(chex.assert_max_traces(4)(step))]: on a signature that is in
    the cache the compiled code runs, without a trace; otherwise the
    function is traced, and the signature enters the cache if the trace
    succeeds. *)
Definition step_jit (rt : Runtime Sig) (state : TrainStateWithBuffer E)
    : Runtime Sig * option (TrainStateWithBuffer E * Info) :=
  if decide (signature state ∈ jit_cache rt) then (rt, step E state)
  else
    let '(count, result) := step_counted (trace_count rt) state in
    let cache :=
      match result with
      | Some _ => signature state :: jit_cache rt
      | None => jit_cache rt
      end in
    ({| trace_count := count; jit_cache := cache |}, result).

End Decorators.

End Train.

(** ** The effective-sample-size diagnostic of [eval_fn] *)

Module Eval.

Local Open Scope R_scope.
Import Jnp.

(** [log_w = target_log_prob(x_flow_original)
             + get_augmented_log_prob(x_flow_aug) - log_prob_flow]. *)
Definition importance_log_w (target_log_prob augmented_log_prob log_prob_flow : vec)
    : option vec :=
  s ← broadcast2 Rplus target_log_prob augmented_log_prob;
  broadcast2 Rminus s log_prob_flow.

(** [ess = 1 / jnp.sum(jax.nn.softmax(log_w) ** 2) / log_w.shape[0]]. *)
Definition ess (log_w : vec) : R :=
  1 / sum (map (fun w => w ^ 2) (softmax log_w)) / INR (length log_w).

(** The tail of [eval_fn]: the ["ess"] entry is computed only when a target
    log-density was given. *)
Definition ess_entry (target_log_prob : option vec)
    (augmented_log_prob log_prob_flow : vec) : option (option R) :=
  match target_log_prob with
  | None => Some None
  | Some t => log_w ← importance_log_w t augmented_log_prob log_prob_flow;
              Some (Some (ess log_w))
  end.

(** The effective sample size in the words of the glossary:
    1 / Σ(normalized weight²), the normalized weights being the softmax of
    the log-weights. *)
Definition spec_ess (log_w : vec) : R :=
  1 / sum (map (fun w => w ^ 2) (softmax log_w)).

End Eval.

(** ** The double-well target ([target/double_well.py]) *)

Module DoubleWell.

Local Open Scope R_scope.
Import Jnp.

(** An array of floats of any rank: its shape and its entries in row-major
    order. *)
Record ndarray := { shape : list nat; data : list R }.

Definition rank (x : ndarray) : nat := length (shape x).

(** [n] consecutive chunks of [k] entries. *)
Fixpoint chunks (k n : nat) (l : list R) : list (list R) :=
  match n with
  | O => []
  | S n' => take k l :: chunks k n' (drop k l)
  end.

(** The sub-arrays along the leading axis. *)
Definition unstack (x : ndarray) : list ndarray :=
  match shape x with
  | [] => []
  | b :: sh => map (fun d => {| shape := sh; data := d |})
                   (chunks (foldr Nat.mul 1%nat sh) b (data x))
  end.

(** The rows of a rank-2 array. *)
Definition rows (x : ndarray) : list (list R) := data <$> unstack x.

(** [jnp.linalg.norm(v, ord=2)] of a vector. *)
Definition norm2 (v : list R) : R := sqrt (sum (map (fun t => t ^ 2) v)).

(** [get_pairwise_distances]: entry [i, j] of [x - x[:, None]] is
    [x[j] - x[i]]; the norm is taken along the last axis. *)
Definition get_pairwise_distances (x : ndarray) : option (list (list R)) :=
  if decide (rank x = 2%nat) then
    Some (map (fun xi => map (fun xj => norm2 (zip_with Rminus xj xi)) (rows x)) (rows x))
  else None.

(** [energy], with its hyper-parameters. *)
Definition energy_with (a b c d0 tau : R) (x : ndarray) : option R :=
  differences ← get_pairwise_distances x;
  let diff_minus_d0 := map (map (fun t => t - d0)) differences in
  let terms := map (map (fun t => a * t + b * t ^ 2 + c * t ^ 4)) diff_minus_d0 in
  Some (sum (map sum terms) / tau / 2).

(** [energy] with the default hyper-parameters
    [a = 0.0, b = -4., c = 0.9, d0 = 4.0, tau = 1.0]. *)
Definition energy (x : ndarray) : option R := energy_with 0 (-4) (9 / 10) 4 1 x.

(** [jax.vmap(f)(x)]: [f] on every sub-array along the leading axis. *)
Definition vmap (f : ndarray -> option R) (x : ndarray) : option (list R) :=
  mapM f (unstack x).

(** What [log_prob_fn] returns: a scalar or a rank-1 array. *)
Inductive output :=
| Scalar (r : R)
| Vector (v : list R).

Definition log_prob_fn (x : ndarray) : option output :=
  if decide (length (shape x) = 2%nat) then
    e ← energy x; Some (Scalar (- e))
  else if decide (length (shape x) = 3%nat) then
    es ← vmap energy x; Some (Vector (map Ropp es))
  else None.

End DoubleWell.

(** ** A small instance of the collaborators

    Two samples per batch, two updates per SMC pass, plain gradient descent
    behind the NaN-zeroing transformation, and a buffer that keeps the
    journal of the writes made to it.  The gradient of the loss has a NaN
    entry. *)

Module Scenario.

Local Open Scope R_scope.
Import Jnp Optax Train.

(** A write to the buffer. *)
Inductive buffer_op :=
| Adjusted (log_q log_w_adjustment : vec) (indices : list nat)
| Added (x : list R) (log_w log_q : vec).

Definition learning_rate_value (lr : LearningRate) : R :=
  match lr with
  | ConstantLR r => r
  | Schedule schedule => schedule 0%Z
  end.

(** A float times a real factor: an infinity keeps or flips its sign, and
    zero times an infinity is NaN. *)
Definition fl_scale (c : R) (x : fl) : fl :=
  match x with
  | Some (Finite r) => Some (Finite (c * r))
  | Some PosInf =>
      if Rlt_dec 0 c then Some PosInf else if Rlt_dec c 0 then Some NegInf else NaN
  | Some NegInf =>
      if Rlt_dec 0 c then Some NegInf else if Rlt_dec c 0 then Some PosInf else NaN
  | None => NaN
  end.

(** Gradient descent: the updates are the gradient scaled by minus the
    learning rate. *)
Definition sgd (lr : LearningRate) : GradientTransformation unit := {|
  init params := BaseOptState tt;
  update updates state params :=
    Some (map (map (fl_scale (- learning_rate_value lr))) updates, state)
|}.

(** Clipping is not exercised by this instance. *)
Definition no_clip (max_norm : R) : GradientTransformation unit := {|
  init params := EmptyState;
  update updates state params := Some (updates, state)
|}.

(** The schedule of this instance is rejected unless the cosine part has
    a step. *)
Definition warmup_cosine_decay_schedule
    (init_value peak_value end_value : R) (warmup_steps decay_steps : Z)
    : option (Z -> R) :=
  if decide (0 < decay_steps - warmup_steps)%Z
  then Some (fun step => if decide (step < warmup_steps)%Z then init_value else end_value)
  else None.

(** The attributes of this instance: the optimizer [sgd], and
    [__version__], a string, which cannot be called. *)
Definition getattr (name : string)
    : option (LearningRate -> option (GradientTransformation unit)) :=
  if decide (name = "sgd") then Some (fun lr => Some (sgd lr))
  else if decide (name = "__version__") then Some (fun _ => None)
  else None.

Definition config : OptimizerConfig := {|
  use_schedule := false;
  init_lr := 1;
  peak_lr := 1;
  end_lr := 1;
  warmup_n_epoch := 0;
  max_global_norm := None;
  optimizer_name := "sgd"
|}.


(** The entries of a tree when all of them are finite. *)
Definition finite_entries (g : pytree) : option (list R) :=
  mapM (fun x : fl => match x with Some (Finite r) => Some r | _ => None end) (concat g).

(** Norm and maximum of a tree: NaN if an entry is NaN, else infinite if an
    entry is. *)
Definition tree_norm (g : pytree) : fl :=
  match finite_entries g with
  | Some l => Some (Finite (sqrt (sum (map (fun t => t ^ 2) l))))
  | None => if existsb isnan (concat g) then NaN else Some PosInf
  end.

Definition tree_max (g : pytree) : fl :=
  match finite_entries g with
  | Some l => Some (Finite (vmax l))
  | None =>
      if existsb isnan (concat g) then NaN
      else if existsb (fun x => match x with Some PosInf => true | _ => false end)
                (concat g) then Some PosInf
      else Some NegInf
  end.

Definition env : Env := {|
  Key := nat;
  Array := list R;
  SMCState := nat;
  BufferState := list buffer_op;
  BaseState := unit;
  rank := fun _ => 4%nat;
  split := fun k => (k + 1, k + 2)%nat;
  unflatten := fun x => x;
  flow_log_prob_apply := fun p x => x;
  fab_loss_grad := fun p x log_q_old => [[NaN; Some (Finite 1)]];
  global_norm := tree_norm;
  ravel_max := tree_max;
  optimizer := chain [zero_nans; sgd (ConstantLR 1)];
  same_carry_type := fun c new_c => bool_decide (map length c.1 = map length new_c.1);
  smc_forward := fun p s k =>
    {| sample_flow := [0; 0]; x_smc := [1; 1]; log_w := [0; 0]; log_q := [0; 0];
       smc_state_out := S s; smc_info := {[ "ess_smc_final" := MFloat (Some (Finite 2)) ]} |};
  sample_n_batches := fun k b size n =>
    (replicate n [0; 0], replicate n [0; 0], replicate n [0; 1]%nat);
  adjust := fun log_q log_w_adjustment indices b =>
    b ++ [Adjusted log_q log_w_adjustment indices];
  add := fun x log_w log_q b => b ++ [Added x log_w log_q];
  batch_size := 2;
  n_updates_per_smc_forward_pass := 2;
  alpha := 2;
  w_adjust_clip := 10
|}.

Definition state0 : TrainStateWithBuffer env :=
  Build_TrainStateWithBuffer env
    [[Some (Finite 0); Some (Finite 0)]]             (* params *)
    0%nat                                            (* key *)
    (init (optimizer env) [[Some (Finite 0); Some (Finite 0)]])  (* opt_state *)
    0%nat                                            (* smc_state *)
    [].                                              (* buffer_state *)

(** The signature of a state of this instance: the shapes of the leaves of
    the parameters. *)
Definition signature (state : TrainStateWithBuffer env) : list nat :=
  map length (params state).

End Scenario.

(** ** Maximum-likelihood loss and data handling ([utils/train_and_eval.py]) *)

Module TrainAndEval.

Local Open Scope R_scope.
Import Jnp Optax Train.

(** [ml_loss_fn(params, x, log_prob_fn)]: the loss and the dictionary that
    goes with it. *)
Definition ml_loss_fn {Params Array : Type} (params : Params) (x : Array)
    (log_prob_fn_apply : Params -> Array -> vec) : R * Info :=
  let log_prob := log_prob_fn_apply params x in
  let loss := - mean log_prob in
  let info : Info := {[ "loss" := MFloat (Some (Finite loss)) ]} in
  (loss, info).

(** Python's [a % b] on integers: the sign of the result is that of the
    divisor; an exception for a zero divisor. *)
Definition pymod (a b : Z) : option Z :=
  if decide (b = 0%Z) then None else Some (a mod b)%Z.

(** [l[:k]] and [l[k:]] along the leading axis: a negative bound counts
    from the end, and bounds beyond either end are clamped. *)
Definition slice_to {A : Type} (l : list A) (k : Z) : list A :=
  if decide (k < 0)%Z then take (Z.to_nat (Z.of_nat (length l) + k)) l
  else take (Z.to_nat k) l.

Definition slice_from {A : Type} (l : list A) (k : Z) : list A :=
  if decide (k < 0)%Z then drop (Z.to_nat (Z.of_nat (length l) + k)) l
  else drop (Z.to_nat k) l.

(** [x.shape[0]]. *)
Definition shape0 {A : Type} (l : list A) : Z := Z.of_nat (length l).

(** The split of [load_dataset]: everything after the permutation, on the
    rows of the dataset.  [train_index] is
    [int(dataset.shape[0] * train_test_split_ratio)], a float product that
    is taken as given. *)
Definition load_dataset_split {A : Type} (dataset : list A) (train_index batch_size : Z)
    : option (list A * list A) :=
  let train_set := slice_to dataset train_index in
  let test_set := slice_from dataset train_index in
  r ← pymod (shape0 train_set) batch_size;
  let train_set := slice_to train_set (shape0 train_set - r) in
  r ← pymod (shape0 test_set) batch_size;
  let test_set := slice_to test_set (shape0 train_set - r) in
  Some (train_set, test_set).

(** [n] consecutive batches of [b] rows. *)
Fixpoint batches {A : Type} (b n : nat) (l : list A) : list (list A) :=
  match n with
  | O => []
  | S n' => take b l :: batches b n' (drop b l)
  end.

(** [jnp.reshape(x, (-1, batch_size, *x.shape[1:]))] on the rows of [x]:
    the number of batches is inferred, which needs a positive batch size
    that divides the number of rows. *)
Definition reshape_batched {A : Type} (x : list A) (batch_size : Z) : option (list (list A)) :=
  if decide (0 < batch_size ∧ (shape0 x mod batch_size = 0))%Z
  then Some (batches (Z.to_nat batch_size) (Z.to_nat (shape0 x / batch_size)) x)
  else None.

(** The head of [eval_fn]: the batch size actually used and the batched
    test set [x_batched]. *)
Definition eval_fn_batching {A : Type} (x : list A) (batch_size : option Z)
    : option (Z * list (list A)) :=
  '(batch_size, x) ←
    match batch_size with
    | None => Some (shape0 x, x)
    | Some batch_size =>
        let batch_size := Z.min batch_size (shape0 x) in
        r ← pymod (shape0 x) batch_size;
        Some (batch_size, slice_to x (shape0 x - r))
    end;
  x_batched ← reshape_batched x batch_size;
  Some (batch_size, x_batched).

End TrainAndEval.

(** ** Initialisation of the FAB training state ([init]) *)

Module FabInit.

Local Open Scope Z_scope.
Import Jnp Optax Train.

(** What [init] closes over besides the collaborators of [step]. *)
Record InitEnv := {
  env : Env;
  (** [flow.init(key1, dummy_sample)] *)
  flow_init : Key env -> pytree;
  (** [smc.init(key2)] *)
  smc_init : Key env -> SMCState env;
  (** [jax.random.split(key, 4)] and [jax.random.split(key, num)] *)
  split4 : Key env -> Key env * Key env * Key env * Key env;
  split_n : Key env -> nat -> list (Key env);
  (** [x.shape] *)
  array_shape : Array env -> list Z;
  (** [jnp.reshape] of the stacked samples of the scan to the given shape *)
  stack_reshape : list (Array env) -> list Z -> Array env;
  (** [buffer.init(x, log_w, log_q_old)] and [buffer.min_lengtht_to_sample] *)
  buffer_init : Array env -> vec -> vec -> option (BufferState env);
  min_lengtht_to_sample : Z;
  (** [np.prod(event_shape)] *)
  flat_event_shape : Z
}.

Section Init.

Variable I : InitEnv.

(** [chex.assert_shape]. *)
Definition assert_shape (shape expected : list Z) : option unit :=
  if decide (shape = expected) then Some tt else None.

(** The body of the scan that fills the buffer: one SMC forward pass. *)
Definition body_fn (flow_params : pytree) (carry : SMCState (env I)) (xs : Key (env I))
    : option (SMCState (env I) * (Array (env I) * vec * vec)) :=
  let smc_state := carry in
  let key := xs in
  let out := smc_forward (env I) flow_params smc_state key in
  _ ← assert_shape (array_shape I (x_smc out)) [batch_size (env I); flat_event_shape I];
  _ ← assert_shape [Z.of_nat (length (log_w out))] [batch_size (env I)];
  _ ← assert_shape [Z.of_nat (length (log_q out))] [batch_size (env I)];
  Some (smc_state_out out, (x_smc out, log_w out, log_q out)).

(** [init].  A negative number of keys makes [jax.random.split] raise. *)
Definition init (key : Key (env I)) : option (TrainStateWithBuffer (env I)) :=
  let '(key1, key2, key3, key4) := split4 I key in
  let flow_params := flow_init I key1 in
  let opt_state := Optax.init (optimizer (env I)) flow_params in
  let smc_state := smc_init I key2 in
  n_forward_pass ← Init.n_forward_pass (min_lengtht_to_sample I) (batch_size (env I));
  keys ← (if decide (n_forward_pass < 0) then None
          else Some (split_n I key3 (Z.to_nat n_forward_pass)));
  '(smc_state, outs) ← scan_loop (body_fn flow_params) smc_state keys;
  let x := outs.*1.*1 in
  let log_w := outs.*1.*2 in
  let log_q := outs.*2 in
  buffer_state ←
    buffer_init I
      (stack_reshape I x [n_forward_pass * batch_size (env I); flat_event_shape I])
      (concat log_w) (concat log_q);
  Some (Build_TrainStateWithBuffer (env I) flow_params key4 opt_state smc_state buffer_state).

(** The SMC state after forward passes with the given keys, all on the same
    flow parameters. *)
Definition smc_state_after (flow_params : pytree) (smc_state : SMCState (env I))
    (keys : list (Key (env I))) : SMCState (env I) :=
  foldl (fun s k => smc_state_out (smc_forward (env I) flow_params s k)) smc_state keys.

End Init.

End FabInit.

(** ** The local configuration of the LJ13 example ([examples/lj13_fab.py]) *)

Module Lj13Fab.

Local Open Scope Z_scope.

(** The entries of the configuration that [to_local_config] assigns or
    reads, under their dotted names. *)
Record Config := {
  flow_nets_type : string;
  flow_nets_egnn_mlp_units : list Z;
  flow_nets_e3gnn_mlp_units : list Z;
  flow_n_layers : Z;
  flow_nets_egnn_n_blocks : Z;
  flow_nets_e3gnn_n_blocks : Z;
  training_batch_size : Z;
  flow_type : string;
  flow_n_aug : Z;
  fab_eval_fab_batch_size : Z;
  fab_n_updates_per_smc_forward_pass : Z;
  fab_buffer_min_length : Z;
  fab_buffer_max_length : Z;
  training_n_epoch : Z;
  training_save : bool;
  training_plot_batch_size : Z;
  (** the attributes of [cfg.logger] *)
  logger : list string
}.

(** [to_local_config], with [debug = False] as in the source. *)
Definition to_local_config (cfg : Config) : Config :=
  let batch_size := 2 in
  {| flow_nets_type := "e3gnn";
     flow_nets_egnn_mlp_units := [4];
     flow_nets_e3gnn_mlp_units := [4];
     flow_n_layers := 1;
     flow_nets_egnn_n_blocks := 2;
     flow_nets_e3gnn_n_blocks := 2;
     training_batch_size := batch_size;
     flow_type := "nice";
     flow_n_aug := 1;
     fab_eval_fab_batch_size := 2;
     fab_n_updates_per_smc_forward_pass := fab_n_updates_per_smc_forward_pass cfg;
     fab_buffer_min_length := batch_size * fab_n_updates_per_smc_forward_pass cfg + 1;
     fab_buffer_max_length := batch_size * fab_n_updates_per_smc_forward_pass cfg * 10;
     training_n_epoch := 32;
     training_save := false;
     training_plot_batch_size := 4;
     logger := ["list_logger"] |}.

End Lj13Fab.

(** ** The choice of the logger ([setup_logger] of
    [examples/create_train_config.py]) *)

Module Logger.

Inductive logger_kind :=
| WandbLogger
| ListLogger
| PandasLogger.

(** [hasattr(cfg.logger, name)]. *)
Definition hasattr (attributes : list string) (name : string) : bool :=
  bool_decide (name ∈ attributes).

(** [setup_logger], on the attributes of [cfg.logger]: the class of logger
    that is chosen, or [None] for the exception raised when there is none.
    Only the choice is modelled.  [ListLogger()] takes no argument; the
    other two classes are built from the chosen entry and its fields, and
    building them can raise in its turn, as it does when the entry is
    null. *)
Definition setup_logger (attributes : list string) : option logger_kind :=
  if hasattr attributes "wandb" then Some WandbLogger
  else if hasattr attributes "list_logger" then Some ListLogger
  else if hasattr attributes "pandas_logger" then Some PandasLogger
  else None.

End Logger.

(** ** The small instance, with what [init] needs *)

Module ScenarioInit.

Local Open Scope Z_scope.
Import Jnp Optax Train FabInit.

(** Arrays are flat lists here, of one number per sample; the buffer wants
    at least three samples before it can be sampled from. *)
Definition init_env : InitEnv := {|
  FabInit.env := Scenario.env;
  flow_init := fun _ => [[Some (Finite 0); Some (Finite 0)]];
  smc_init := fun _ => 0%nat;
  split4 := fun k => (k + 1, k + 2, k + 3, k + 4)%nat;
  split_n := fun k n => map (fun i => (k + i)%nat) (seq 1 n);
  array_shape := fun x => [Z.of_nat (length x); 1];
  stack_reshape := fun xs shape => concat xs;
  buffer_init := fun x log_w log_q =>
    if decide (Z.of_nat (length log_w) < 3) then None else Some [Scenario.Added x log_w log_q];
  min_lengtht_to_sample := 3;
  flat_event_shape := 1
|}.

End ScenarioInit.

(** ** Vocabulary for the further properties *)

Module Vocabulary.

Import Jnp Optax Train.

(** A transformation whose update never raises. *)
Definition never_fails (B : Type) (t : GradientTransformation B) : Prop :=
  forall g s p, is_Some (update t g s p).

(** A tree without NaN entries (infinite entries are allowed). *)
Definition clean (t : pytree) : Prop :=
  Forall (Forall (fun x => isnan x = false)) t.

(** A finite float, a tree of finite floats, and a tree whose entries are
    finite or NaN, that is without infinite entries. *)
Definition finite (x : fl) : Prop := exists r, x = Some (Finite r).

Definition finite_tree (t : pytree) : Prop := Forall (Forall finite) t.

Definition no_infinity (t : pytree) : Prop :=
  Forall (Forall (fun x => x = NaN \/ finite x)) t.

(** A transformation that makes finite updates out of finite updates. *)
Definition keeps_finite (B : Type) (t : GradientTransformation B) : Prop :=
  forall g s p g' s', finite_tree g -> update t g s p = Some (g', s') -> finite_tree g'.

(** The same collaborators with another SMC forward pass. *)
Definition with_smc_forward (E : Env)
    (f : pytree -> SMCState E -> Key E -> SmcOutput (Array E) (SMCState E)) : Env := {|
  Key := Key E;
  Array := Array E;
  SMCState := SMCState E;
  BufferState := BufferState E;
  BaseState := BaseState E;
  rank := rank E;
  split := split E;
  unflatten := unflatten E;
  flow_log_prob_apply := flow_log_prob_apply E;
  fab_loss_grad := fab_loss_grad E;
  global_norm := global_norm E;
  ravel_max := ravel_max E;
  optimizer := optimizer E;
  same_carry_type := same_carry_type E;
  smc_forward := f;
  sample_n_batches := sample_n_batches E;
  adjust := adjust E;
  add := add E;
  batch_size := batch_size E;
  n_updates_per_smc_forward_pass := n_updates_per_smc_forward_pass E;
  alpha := alpha E;
  w_adjust_clip := w_adjust_clip E
|}.

(** A training state, read as a state of the collaborators with another
    SMC forward pass: the components are the same. *)
Definition with_smc_forward_state (E : Env)
    (f : pytree -> SMCState E -> Key E -> SmcOutput (Array E) (SMCState E))
    (st : TrainStateWithBuffer E) : TrainStateWithBuffer (with_smc_forward E f) :=
  Build_TrainStateWithBuffer (with_smc_forward E f)
    (params st) (key st) (opt_state st) (smc_state st) (buffer_state st).

(** [x + t] for a rank-2 array [x] and a vector [t], by broadcasting: [t]
    is added to every row. *)
Definition translate (t : list R) (x : DoubleWell.ndarray) : DoubleWell.ndarray := {|
  DoubleWell.shape := DoubleWell.shape x;
  DoubleWell.data := concat (map (fun r => zip_with Rplus r t) (DoubleWell.rows x))
|}.

(** Entry [i, j] of a matrix given by its rows. *)
Definition entry (m : list (list R)) (i j : nat) : option R :=
  r ← m !! i; r !! j.

End Vocabulary.

(** * Properties *)

(** ** Facts about rank-1 arrays *)

Section JnpFacts.

Local Open Scope R_scope.
Import Jnp.

Lemma broadcast2_same_length f (a b : vec) :
  length a = length b -> broadcast2 f a b = Some (zip_with f a b).
Proof.
  intros Hlen. unfold broadcast2. destruct (decide _); [reflexivity | contradiction].
Qed.

Lemma sum_replicate (n : nat) (x : R) : sum (replicate n x) = INR n * x.
Proof.
  induction n as [|n IH].
  - simpl. lra.
  - change (sum (replicate (S n) x)) with (x + sum (replicate n x)).
    rewrite IH, S_INR. lra.
Qed.

Lemma map_replicate {A B} (f : A -> B) (n : nat) (x : A) :
  map f (replicate n x) = replicate n (f x).
Proof. induction n as [|n IH]; simpl; [reflexivity | now rewrite IH]. Qed.

Lemma foldr_Rmax_replicate (n : nat) (c : R) : foldr Rmax c (replicate n c) = c.
Proof.
  induction n as [|n IH]; simpl; [reflexivity|].
  rewrite IH. apply Rmax_left. lra.
Qed.

Lemma vmax_replicate (n : nat) (c : R) : vmax (replicate (S n) c) = c.
Proof. simpl. apply foldr_Rmax_replicate. Qed.

(** The array pipeline of the loss, entry by entry. *)
Lemma scale_zip_with_minus (c : R) (a b : vec) :
  scale c (zip_with Rminus a b) = map (fun qs => c * (qs.1 - qs.2)) (zip a b).
Proof.
  revert b. induction a as [|x a IH]; intros [|y b]; simpl; try reflexivity.
  f_equal. apply IH.
Qed.

Lemma weighted_zip_with (c w : R) (a b : vec) :
  zip_with Rmult (clip_max w (vexp (scale c (zip_with Rminus a b)))) a
  = map (fun qs => Rmin (exp (c * (qs.1 - qs.2))) w * qs.1) (zip a b).
Proof.
  revert b. induction a as [|x a IH]; intros [|y b]; simpl; try reflexivity.
  f_equal. apply IH.
Qed.

End JnpFacts.

(** ** The FAB loss *)

Section FabLossFacts.

Local Open Scope R_scope.
Import Jnp FabLoss.

(** C1.  On a batch [x] of rank 4 whose stored log-densities [log_q_old]
    are as many as the current log-densities [log_q_current] of the batch,
    [fab_loss_buffer_samples] returns the loss
    −mean(clip(exp((1−alpha)·(log_q_current − log_q_old)), max=w_clip) ·
    log_q_current), together with the per-sample log-weight adjustment
    (1−alpha)·(log_q_current − log_q_old) and [log_q_current]. *)
Theorem fab_loss_buffer_samples_spec
    (Params Array : Type) (rank : Array -> nat)
    (params : Params) (x : Array) (log_q_old : vec) (alpha : R)
    (log_q_fn_apply : Params -> Array -> vec) (w_clip : R) :
  rank x = 4%nat ->
  length log_q_old = length (log_q_fn_apply params x) ->
  let log_q_current := log_q_fn_apply params x in
  fab_loss_buffer_samples Params Array rank params x log_q_old alpha log_q_fn_apply w_clip
  = Some (spec_loss alpha w_clip log_q_current log_q_old,
          (spec_log_w_adjust alpha log_q_current log_q_old, log_q_current)).
Proof.
  intros Hrank Hlen log_q_current. unfold fab_loss_buffer_samples, assert_rank.
  destruct (decide (rank x = 4%nat)) as [_|Hne]; [|contradiction]. simpl.
  fold log_q_current. unfold stop_gradient.
  rewrite broadcast2_same_length by (subst log_q_current; congruence). simpl.
  unfold assert_equal_shape.
  destruct (decide _) as [_|Hne]; simpl.
  - unfold spec_loss, spec_log_w_adjust.
    rewrite weighted_zip_with, scale_zip_with_minus. reflexivity.
  - exfalso. apply Hne. unfold scale.
    rewrite length_map, length_zip_with. subst log_q_current. lia.
Qed.

(** The theorem at a batch of two samples. *)
Lemma fab_loss_buffer_samples_spec_witness :
  fab_loss_buffer_samples unit unit (fun _ => 4%nat) tt tt [0; 1] 2 (fun _ _ => [1; 0]) 10
  = Some (spec_loss 2 10 [1; 0] [0; 1], (spec_log_w_adjust 2 [1; 0] [0; 1], [1; 0])).
Proof.
  apply (fab_loss_buffer_samples_spec unit unit (fun _ => 4%nat) tt tt [0; 1] 2
           (fun _ _ => [1; 0]) 10); reflexivity.
Defined.

End FabLossFacts.

(** ** Seeding the buffer *)

Section InitFacts.

Local Open Scope Z_scope.
Import Init.

(** C5.  For every batch size of at least one and every minimum fill
    length, the number of samples with which [init] seeds the buffer,
    ((min_length // batch_size) + 1) · batch_size, is defined and strictly
    greater than the minimum fill length, so the buffer is not underfull. *)
Theorem init_seeds_more_than_min_length (min_length_to_sample batch_size : Z) :
  1 <= batch_size ->
  exists n, n_seed_samples min_length_to_sample batch_size = Some n
            /\ min_length_to_sample < n
            /\ buffer_init_underfull n min_length_to_sample = false.
Proof.
  intros Hb. unfold n_seed_samples, n_forward_pass, floordiv.
  destruct (decide (batch_size = 0)) as [->|_]; [lia|]. simpl.
  eexists; split; [reflexivity|].
  assert (Hlt : min_length_to_sample < (min_length_to_sample / batch_size + 1) * batch_size).
  { pose proof (Z.mod_pos_bound min_length_to_sample batch_size ltac:(lia)) as Hm.
    pose proof (Z.div_mod min_length_to_sample batch_size ltac:(lia)) as Hd.
    nia. }
  split; [exact Hlt|].
  unfold buffer_init_underfull. apply bool_decide_eq_false. lia.
Qed.

(** The theorem for a minimum fill length of 32 and batches of 16. *)
Lemma init_seeds_more_than_min_length_witness :
  exists n, n_seed_samples 32 16 = Some n /\ 32 < n /\ buffer_init_underfull n 32 = false.
Proof. apply (init_seeds_more_than_min_length 32 16). lia. Defined.

End InitFacts.

(** ** The effective-sample-size diagnostic *)

Section EvalFacts.

Local Open Scope R_scope.
Import Jnp Eval.

Lemma softmax_replicate (n : nat) (c : R) :
  softmax (replicate (S n) c) = replicate (S n) (1 / INR (S n)).
Proof.
  unfold softmax. rewrite vmax_replicate.
  rewrite (map_replicate (fun x => exp (x - c))).
  replace (c - c) with 0 by lra. rewrite exp_0.
  rewrite sum_replicate, map_replicate.
  f_equal. f_equal. lra.
Qed.

Lemma spec_ess_replicate (n : nat) (c : R) :
  spec_ess (replicate (S n) c) = INR (S n).
Proof.
  unfold spec_ess. rewrite softmax_replicate, map_replicate, sum_replicate.
  assert (Hn : INR (S n) <> 0) by (apply not_0_INR; lia).
  field. exact Hn.
Qed.

(** C7, as the claim states it, fails: for two particles of equal weight
    the reported value is 1, while 1 / Σ(normalized weight²) is the
    particle count 2. *)
Lemma ess_is_not_the_particle_count :
  ess [0; 0] = 1 /\ spec_ess [0; 0] = 2 /\ ess [0; 0] <> spec_ess [0; 0].
Proof.
  assert (Hs : spec_ess [0; 0] = 2).
  { change [0; 0] with (replicate 2 0). rewrite spec_ess_replicate. simpl. lra. }
  assert (He : ess [0; 0] = 1).
  { change (ess [0; 0]) with (spec_ess [0; 0] / INR 2). rewrite Hs. simpl. lra. }
  repeat split; [exact He | exact Hs |]. rewrite He, Hs. lra.
Qed.

(** C7, amended.  The reported effective sample size is
    1 / Σ(normalized weight²) divided by the number of particles, the
    normalized weights being the softmax of the importance log-weights; for
    uniform weights over N ≥ 1 particles, 1 / Σ(normalized weight²) is N and
    the reported value is 1. *)
Theorem ess_is_fraction_of_particle_count :
  (forall log_w : vec, ess log_w = spec_ess log_w / INR (length log_w))
  /\ (forall (c : R) (n : nat),
        spec_ess (replicate (S n) c) = INR (S n) /\ ess (replicate (S n) c) = 1).
Proof.
  split; [reflexivity|]. intros c n.
  split; [apply spec_ess_replicate|].
  change (ess (replicate (S n) c))
    with (spec_ess (replicate (S n) c) / INR (length (replicate (S n) c))).
  rewrite spec_ess_replicate, length_replicate.
  assert (Hn : INR (S n) <> 0) by (apply not_0_INR; lia).
  field. exact Hn.
Qed.

End EvalFacts.

(** ** The double-well target *)

Section DoubleWellFacts.

Local Open Scope R_scope.
Import Jnp DoubleWell.

Lemma energy_rank_2 (x : ndarray) : rank x = 2%nat -> is_Some (energy x).
Proof.
  intros Hr. unfold energy, energy_with, get_pairwise_distances.
  destruct (decide (rank x = 2%nat)); [|contradiction]. simpl. eauto.
Qed.

Lemma unstack_shape (x c : ndarray) :
  c ∈ unstack x -> shape x = length (unstack x) :: shape c.
Proof.
  unfold unstack. destruct (shape x) as [|b sh]; [intros H; inversion H|].
  intros Hc. apply list_elem_of_fmap in Hc as (d & -> & _). simpl.
  f_equal. rewrite length_map.
  generalize (data x) as l. generalize (foldr Nat.mul 1%nat sh) as k.
  clear. induction b as [|b IH]; intros k l; simpl; [reflexivity|].
  f_equal. apply IH.
Qed.

(** C9.  [log_prob_fn] returns, for a rank-2 input, the scalar negative
    energy of that configuration; for a rank-3 input, the vector of the
    negative energies of the configurations along the leading axis, one
    per configuration; for an input of any other rank it raises. *)
Theorem log_prob_fn_by_rank (x : ndarray) :
  (rank x = 2%nat ->
     exists e, energy x = Some e /\ log_prob_fn x = Some (Scalar (- e)))
  /\ (rank x = 3%nat ->
        exists es, Forall2 (fun c e => energy c = Some e) (unstack x) es
                   /\ log_prob_fn x = Some (Vector (map Ropp es)))
  /\ (rank x <> 2%nat -> rank x <> 3%nat -> log_prob_fn x = None).
Proof.
  unfold log_prob_fn, rank. repeat split.
  - intros Hr. destruct (energy_rank_2 x Hr) as [e He].
    exists e. split; [exact He|].
    destruct (decide _); [|contradiction]. rewrite He. reflexivity.
  - intros Hr.
    assert (Hall : is_Some (mapM energy (unstack x))).
    { apply mapM_is_Some, Forall_forall. intros c Hc. apply energy_rank_2.
      pose proof (unstack_shape x c Hc) as Hs. unfold rank in *.
      rewrite Hs in Hr. simpl in Hr. lia. }
    destruct Hall as [es Hes]. exists es. split; [apply mapM_Some, Hes|].
    destruct (decide (length (shape x) = 2%nat)); [lia|].
    destruct (decide (length (shape x) = 3%nat)); [|contradiction].
    unfold vmap. rewrite Hes. reflexivity.
  - intros H2 H3.
    destruct (decide (length (shape x) = 2%nat)); [contradiction|].
    destruct (decide (length (shape x) = 3%nat)); [contradiction|]. reflexivity.
Qed.

(** The theorem at two particles in the plane, at a batch of one such
    configuration, and at a rank-1 array. *)
Lemma log_prob_fn_by_rank_witness :
  (exists e, energy {| shape := [2; 2]%nat; data := [0; 0; 1; 1] |} = Some e
             /\ log_prob_fn {| shape := [2; 2]%nat; data := [0; 0; 1; 1] |}
                = Some (Scalar (- e)))
  /\ (exists es,
        Forall2 (fun c e => energy c = Some e)
          (unstack {| shape := [1; 2; 2]%nat; data := [0; 0; 1; 1] |}) es
        /\ log_prob_fn {| shape := [1; 2; 2]%nat; data := [0; 0; 1; 1] |}
           = Some (Vector (map Ropp es)))
  /\ log_prob_fn {| shape := [4]%nat; data := [0; 0; 1; 1] |} = None.
Proof.
  split; [|split].
  - apply (log_prob_fn_by_rank {| shape := [2; 2]%nat; data := [0; 0; 1; 1] |}).
    reflexivity.
  - apply (log_prob_fn_by_rank {| shape := [1; 2; 2]%nat; data := [0; 0; 1; 1] |}).
    reflexivity.
  - apply (log_prob_fn_by_rank {| shape := [4]%nat; data := [0; 0; 1; 1] |});
      unfold rank; simpl; lia.
Defined.

End DoubleWellFacts.

(** ** The training step *)

Section TrainFacts.

Local Open Scope R_scope.
Import Jnp Optax Train.

Variable E : Env.

(** The dictionary built by one update. *)
Lemma one_gradient_update_inv (c c' : pytree * OptState (BaseState E))
    (b : Array E * vec) (info : Info) (lwa lq : vec) :
  one_gradient_update E c b = Some (c', (info, lwa, lq)) ->
  exists loss,
    FabLoss.fab_loss_buffer_samples _ _ (rank E) c.1 (unflatten E b.1) b.2 (alpha E)
      (flow_log_prob_apply E) (w_adjust_clip E) = Some (loss, (lwa, lq))
    /\ gradient_step E c b = Some c'
    /\ info !! "loss" = Some (MFloat (Some (Finite loss)))
    /\ info !! "log10_grad_norm"
       = Some (MFloat (fl_log10 (global_norm E (fab_loss_grad E c.1 (unflatten E b.1) b.2))))
    /\ info !! "log10_max_param_grad"
       = Some (MFloat (fl_log (ravel_max E (fab_loss_grad E c.1 (unflatten E b.1) b.2))))
    /\ info !! "ignored_grad_count"
       = match c.2 with
         | IgnoreNanOptState n _ => Some (MInt n)
         | _ => None
         end.
Proof.
  destruct c as [p o], b as [x lqo]. unfold one_gradient_update, gradient_step. simpl.
  destruct (FabLoss.fab_loss_buffer_samples _ _ _ _ _ _ _ _ _) as [[loss [lwa' lq']]|] eqn:Hl;
    simpl; [|discriminate].
  destruct (update (optimizer E) _ o p) as [[u o']|] eqn:Hu; simpl; [|discriminate].
  intros [= <- <- <- <-]. exists loss. split; [reflexivity|]. split; [reflexivity|].
  unfold dict_update.
  destruct o; repeat split; reflexivity.
Qed.


Lemma carry_before_cons (c c1 : pytree * OptState (BaseState E))
    (b : Array E * vec) (bs : list (Array E * vec)) (i : nat) :
  gradient_step E c b = Some c1 ->
  carry_before E c (b :: bs) (S i) = carry_before E c1 bs i.
Proof. intros Hg. unfold carry_before. simpl. rewrite Hg. reflexivity. Qed.

(** [scan] threads the carry: the outputs of iteration [i] are those of
    [one_gradient_update] on the carry left by the first [i] updates. *)
Lemma scan_loop_spec (batches : list (Array E * vec)) :
  forall (c c' : pytree * OptState (BaseState E)) (outs : list (Info * vec * vec)),
  scan_loop (one_gradient_update E) c batches = Some (c', outs) ->
  length outs = length batches
  /\ carry_before E c batches (length batches) = Some c'
  /\ forall i b, batches !! i = Some b ->
       exists ci ci' out,
         carry_before E c batches i = Some ci
         /\ outs !! i = Some out
         /\ one_gradient_update E ci b = Some (ci', out).
Proof.
  induction batches as [|b bs IH]; intros c c' outs; simpl.
  - intros [= <- <-]. repeat split. intros i b Hb. inversion Hb.
  - destruct (one_gradient_update E c b) as [[c1 [[info lwa] lq]]|] eqn:H1; simpl; [|discriminate].
    destruct (scan_loop (one_gradient_update E) c1 bs) as [[c2 ys]|] eqn:H2; simpl; [|discriminate].
    intros [= <- <-].
    destruct (one_gradient_update_inv _ _ _ _ _ _ H1) as (loss & _ & Hg & _).
    destruct (IH _ _ _ H2) as (Hlen & Hlast & Hi).
    split; [simpl; congruence|]. split.
    + rewrite (carry_before_cons _ _ _ _ _ Hg). exact Hlast.
    + intros [|i] b' Hb'.
      * injection Hb' as <-. exists c, c1, (info, lwa, lq). repeat split. exact H1.
      * destruct (Hi i b' Hb') as (ci & ci' & out & Hc & Ho & Hu).
        exists ci, ci', out. rewrite (carry_before_cons _ _ _ _ _ Hg). repeat split; assumption.
Qed.

Lemma scan_typed_loop {C X Y : Type} (same_type : C -> C -> bool)
    (f : C -> X -> option (C * Y)) (xs : list X) :
  forall (c : C) (r : C * list Y),
    scan_typed same_type f c xs = Some r -> scan_loop f c xs = Some r.
Proof.
  induction xs as [|x xs IH]; intros c r; simpl; [auto|].
  destruct (f c x) as [[c1 y]|]; simpl; [|discriminate].
  destruct (same_type c c1); [|discriminate].
  destruct (scan_typed same_type f c1 xs) as [[c2 ys]|] eqn:H2; simpl; [|discriminate].
  intros [= <-]. rewrite (IH _ _ H2). reflexivity.
Qed.

(** [step], opened up: what it returns when it returns. *)
Lemma step_inv (st st' : TrainStateWithBuffer E) (info : Info) :
  step E st = Some (st', info) ->
  exists c' outs,
    length (sampled_batches E st) = n_updates_per_smc_forward_pass E
    /\ scan_loop (one_gradient_update E) (params st, opt_state st) (sampled_batches E st)
       = Some (c', outs)
    /\ params st' = c'.1
    /\ opt_state st' = c'.2
    /\ key st' = (split E (split E (key st)).1).1
    /\ smc_state st' = smc_state_out (smc_pass_at_start E st)
    /\ buffer_state st'
       = add E (x_smc (smc_pass_at_start E st)) (log_w (smc_pass_at_start E st))
           (log_q (smc_pass_at_start E st))
           (adjust E (concat outs.*2) (concat outs.*1.*2) (concat (sampled_indices E st))
              (buffer_state st))
    /\ info = dict_update
                (update_info_loop ∅ outs.*1.*1 (n_updates_per_smc_forward_pass E))
                (smc_info (smc_pass_at_start E st)).
Proof.
  unfold step, smc_pass_at_start, sampled_batches, sampled_indices, sampled, smc_key, sampling_key.
  destruct (split E (key st)) as [k1 sk1] eqn:Hs1. simpl.
  destruct (sample_n_batches E sk1 (buffer_state st) (batch_size E)
              (n_updates_per_smc_forward_pass E)) as [[xb lqb] idx] eqn:Hs. simpl.
  unfold scan. simpl. destruct (decide _) as [[Hx Hq]|]; simpl; [|discriminate].
  destruct (scan_typed _ _ _ _) as [[[p o] outs]|] eqn:Hscan; simpl; [|discriminate].
  apply scan_typed_loop in Hscan.
  destruct (split E k1) as [k2 sk2] eqn:Hs2. simpl.
  intros [= <- <-]. exists (p, o), outs. simpl.
  split; [rewrite length_zip; lia|]. split; [exact Hscan|]. repeat split.
Qed.


(** The merging loop: the dictionary merged last wins on all its keys. *)
Lemma update_info_loop_last (infos : list Info) (n : nat) (last : Info) :
  infos !! n = Some last ->
  forall k v, last !! k = Some v ->
              update_info_loop ∅ infos (S n) !! k = Some v.
Proof.
  intros Hlast k v Hk. unfold update_info_loop.
  rewrite seq_S, foldl_snoc. simpl.
  unfold dict_update, tree_index. rewrite Hlast. simpl.
  apply lookup_union_Some_l. exact Hk.
Qed.

(** C2.  When [step] returns, the batches on which the gradient updates ran
    are those that [sample_n_batches] drew from the buffer state with which
    the step started; [adjust] is applied to that same buffer state, with
    the indices that this call of [sample_n_batches] returned and the
    values recorded by the updates; [add] is applied to the result of
    [adjust], and its result is the buffer state of the new training
    state. *)
Theorem step_buffer_protocol (st st' : TrainStateWithBuffer E) (info : Info) :
  step E st = Some (st', info) ->
  exists c' outs,
    scan_loop (one_gradient_update E) (params st, opt_state st)
      (zip (sample_n_batches E (sampling_key E st) (buffer_state st) (batch_size E)
              (n_updates_per_smc_forward_pass E)).1.1
           (sample_n_batches E (sampling_key E st) (buffer_state st) (batch_size E)
              (n_updates_per_smc_forward_pass E)).1.2)
    = Some (c', outs)
    /\ let indices :=
         (sample_n_batches E (sampling_key E st) (buffer_state st) (batch_size E)
            (n_updates_per_smc_forward_pass E)).2 in
       let adjusted :=
         adjust E (concat outs.*2) (concat outs.*1.*2) (concat indices) (buffer_state st) in
       let out := smc_pass_at_start E st in
       buffer_state st' = add E (x_smc out) (log_w out) (log_q out) adjusted.
Proof.
  intros Hstep.
  destruct (step_inv _ _ _ Hstep) as (c' & outs & _ & Hscan & _ & _ & _ & _ & Hbuf & _).
  exists c', outs. split; [exact Hscan | exact Hbuf].
Qed.

(** C3.  When [step] returns, the SMC forward pass whose samples are added
    to the buffer, whose SMC state is kept and whose diagnostics are
    reported is [smc_forward] on the parameters and SMC state of the
    incoming training state; the gradient updates that produce the new
    parameters start from those same incoming parameters. *)
Theorem step_smc_uses_start_params (st st' : TrainStateWithBuffer E) (info : Info) :
  step E st = Some (st', info) ->
  let out := smc_forward E (params st) (smc_state st) (smc_key E st) in
  smc_state st' = smc_state_out out
  /\ (exists adjusted, buffer_state st' = add E (x_smc out) (log_w out) (log_q out) adjusted)
  /\ (exists merged, info = dict_update merged (smc_info out))
  /\ carry_before E (params st, opt_state st) (sampled_batches E st) 0
     = Some (params st, opt_state st)
  /\ carry_before E (params st, opt_state st) (sampled_batches E st)
       (n_updates_per_smc_forward_pass E)
     = Some (params st', opt_state st').
Proof.
  intros Hstep out.
  destruct (step_inv _ _ _ Hstep) as (c' & outs & Hlen & Hscan & Hp & Ho & _ & Hsmc & Hbuf & Hinfo).
  destruct (scan_loop_spec _ _ _ _ Hscan) as (_ & Hlast & _).
  split; [exact Hsmc|]. split; [eexists; exact Hbuf|]. split; [eexists; exact Hinfo|].
  split; [reflexivity|].
  rewrite <- Hlen, Hlast, Hp, Ho. destruct c'; reflexivity.
Qed.

(** C4.  When [step] returns, the gradient updates were performed one after
    the other over the sampled batches, each starting from the parameters
    and optimizer state left by the previous one, and the last one leaves
    the parameters and optimizer state of the new training state.  The
    outputs [outs] are those of the scan of [one_gradient_update] over the
    sampled batches, and they are what [adjust] receives on the way to the
    new buffer state; the log-weight adjustment and log-density among them
    for batch number [i] are those that [fab_loss_buffer_samples] computes
    on that batch with the parameters as they stood before update number
    [i]. *)
Theorem updates_are_sequential (st st' : TrainStateWithBuffer E) (info : Info) :
  step E st = Some (st', info) ->
  let batches := sampled_batches E st in
  let start := (params st, opt_state st) in
  let out := smc_pass_at_start E st in
  exists outs : list (Info * vec * vec),
    scan_loop (one_gradient_update E) start batches
    = Some ((params st', opt_state st'), outs)
    /\ length batches = n_updates_per_smc_forward_pass E
    /\ length outs = n_updates_per_smc_forward_pass E
    /\ carry_before E start batches (n_updates_per_smc_forward_pass E)
       = Some (params st', opt_state st')
    /\ buffer_state st'
       = add E (x_smc out) (log_w out) (log_q out)
           (adjust E (concat outs.*2) (concat outs.*1.*2)
              (concat (sampled_indices E st)) (buffer_state st))
    /\ forall i x log_q_old, batches !! i = Some (x, log_q_old) ->
         exists flow_params opt_state next loss info_i log_w_adjust log_q,
           carry_before E start batches i = Some (flow_params, opt_state)
           /\ one_gradient_update E (flow_params, opt_state) (x, log_q_old)
              = Some (next, (info_i, log_w_adjust, log_q))
           /\ gradient_step E (flow_params, opt_state) (x, log_q_old) = Some next
           /\ carry_before E start batches (S i) = Some next
           /\ FabLoss.fab_loss_buffer_samples _ _ (rank E) flow_params (unflatten E x)
                log_q_old (alpha E) (flow_log_prob_apply E) (w_adjust_clip E)
              = Some (loss, (log_w_adjust, log_q))
           /\ outs !! i = Some (info_i, log_w_adjust, log_q)
           /\ outs.*1.*2 !! i = Some log_w_adjust
           /\ outs.*2 !! i = Some log_q.
Proof.
  intros Hstep batches start out.
  destruct (step_inv _ _ _ Hstep) as (c' & outs & Hlen & Hscan & Hp & Ho & _ & _ & Hbuf & _).
  destruct (scan_loop_spec _ _ _ _ Hscan) as (Hlo & Hlast & Hi).
  assert (Hc' : c' = (params st', opt_state st')).
  { rewrite Hp, Ho. destruct c'; reflexivity. }
  exists outs. split; [subst batches start; rewrite Hscan, Hc'; reflexivity|].
  split; [exact Hlen|]. split; [congruence|]. split.
  { rewrite Hlen in Hlast. subst batches start. rewrite Hlast, Hc'. reflexivity. }
  split; [exact Hbuf|].
  intros i x lqo Hb.
  destruct (Hi i (x, lqo) Hb) as ([p o] & ci' & [[info_i lwa] lq] & Hc & Hout & Hupd).
  destruct (one_gradient_update_inv _ _ _ _ _ _ Hupd) as (loss & Hloss & Hg & _).
  exists p, o, ci', loss, info_i, lwa, lq.
  split; [exact Hc|]. split; [exact Hupd|]. split; [exact Hg|]. split.
  { subst batches start. unfold carry_before in *.
    rewrite (take_S_r _ _ _ Hb), foldl_snoc, Hc. exact Hg. }
  split; [exact Hloss|]. split; [exact Hout|].
  rewrite !list_lookup_fmap, Hout. split; reflexivity.
Qed.

Lemma state_eq (s1 s2 : TrainStateWithBuffer E) :
  params s1 = params s2 ->
  opt_state s1 = opt_state s2 ->
  smc_state s1 = smc_state s2 ->
  buffer_state s1 = buffer_state s2 ->
  key s1 = key s2 ->
  s1 = s2.
Proof.
  destruct s1 as [p1 k1 o1 m1 b1], s2 as [p2 k2 o2 m2 b2]. simpl.
  intros -> -> -> -> ->. reflexivity.
Qed.

(** C10.  When [step] returns after at least one update, the diagnostics
    are the SMC diagnostics merged over a dictionary in which every key of
    the dictionary of the last gradient update (the loss, the two gradient
    statistics and, when the optimizer state carries it, the count of
    ignored gradients) has the value of that last update: what the earlier
    updates wrote under these keys is overwritten. *)
Theorem info_keeps_last_update_only (st st' : TrainStateWithBuffer E) (info : Info) :
  step E st = Some (st', info) ->
  (1 <= n_updates_per_smc_forward_pass E)%nat ->
  let batches := sampled_batches E st in
  let last := (n_updates_per_smc_forward_pass E - 1)%nat in
  exists merged c b c' loss last_info log_w_adjust log_q,
    info = dict_update merged (smc_info (smc_pass_at_start E st))
    /\ carry_before E (params st, opt_state st) batches last = Some c
    /\ batches !! last = Some b
    /\ one_gradient_update E c b = Some (c', (last_info, log_w_adjust, log_q))
    /\ FabLoss.fab_loss_buffer_samples _ _ (rank E) c.1 (unflatten E b.1) b.2 (alpha E)
         (flow_log_prob_apply E) (w_adjust_clip E) = Some (loss, (log_w_adjust, log_q))
    /\ merged !! "loss" = Some (MFloat (Some (Finite loss)))
    /\ merged !! "log10_grad_norm" = last_info !! "log10_grad_norm"
    /\ merged !! "log10_max_param_grad" = last_info !! "log10_max_param_grad"
    /\ forall k v, last_info !! k = Some v -> merged !! k = Some v.
Proof.
  intros Hstep Hn batches last.
  destruct (step_inv _ _ _ Hstep) as (c' & outs & Hlen & Hscan & _ & _ & _ & _ & _ & Hinfo).
  destruct (scan_loop_spec _ _ _ _ Hscan) as (Hlo & _ & Hi).
  fold batches in Hlen, Hi.
  destruct (lookup_lt_is_Some_2 batches last) as [b Hb]; [subst last; lia|].
  destruct (Hi last b Hb) as (c & ci' & [[last_info lwa] lq] & Hc & Hout & Hupd).
  destruct (one_gradient_update_inv _ _ _ _ _ _ Hupd) as (loss & Hloss & _ & Hk1 & Hk2 & Hk3 & _).
  assert (Hlast : outs.*1.*1 !! last = Some last_info).
  { rewrite !list_lookup_fmap, Hout. reflexivity. }
  assert (Hwins : forall k v, last_info !! k = Some v ->
            update_info_loop ∅ outs.*1.*1 (n_updates_per_smc_forward_pass E) !! k = Some v).
  { replace (n_updates_per_smc_forward_pass E) with (S last) by (subst last; lia).
    apply update_info_loop_last. exact Hlast. }
  exists (update_info_loop ∅ outs.*1.*1 (n_updates_per_smc_forward_pass E)),
    c, b, ci', loss, last_info, lwa, lq.
  split; [exact Hinfo|]. split; [exact Hc|]. split; [exact Hb|]. split; [exact Hupd|].
  split; [exact Hloss|]. split; [apply Hwins, Hk1|].
  split; [rewrite Hk2; apply Hwins, Hk2|]. split; [rewrite Hk3; apply Hwins, Hk3|].
  exact Hwins.
Qed.

End TrainFacts.

(** ** The decorated step: the trace counter and the cache *)

Section DecoratorFacts.

Import Jnp Optax Train.

Variable E : Env.
Variable Sig : Type.
Context `{EqDecision Sig}.
Variable signature : TrainStateWithBuffer E -> Sig.

(** A call on a signature that has compiled code. *)
Lemma step_jit_hit (rt : Runtime Sig) (st : TrainStateWithBuffer E) :
  signature st ∈ jit_cache rt ->
  step_jit E Sig signature rt st = (rt, step E st).
Proof.
  intros Hin. unfold step_jit. destruct (decide _) as [_|Hno]; [reflexivity|].
  contradiction.
Qed.

(** A call that has to trace, within the budget of four traces. *)
Lemma step_jit_miss (rt : Runtime Sig) (st : TrainStateWithBuffer E)
    (r : TrainStateWithBuffer E * Info) :
  signature st ∉ jit_cache rt ->
  (trace_count rt < 4)%nat ->
  step E st = Some r ->
  step_jit E Sig signature rt st
  = ({| trace_count := S (trace_count rt); jit_cache := signature st :: jit_cache rt |},
     Some r).
Proof.
  intros Hno Hcount Hstep. unfold step_jit, step_counted.
  destruct (decide (signature st ∈ _)) as [Hin|_]; [contradiction|].
  destruct (decide (4 < S (trace_count rt))%nat) as [Hgt|_]; [lia|].
  rewrite Hstep. reflexivity.
Qed.

(** A call that has to trace when the budget is used up. *)
Lemma step_jit_exhausted (rt : Runtime Sig) (st : TrainStateWithBuffer E) :
  signature st ∉ jit_cache rt ->
  (4 <= trace_count rt)%nat ->
  step_jit E Sig signature rt st
  = ({| trace_count := S (trace_count rt); jit_cache := jit_cache rt |}, None).
Proof.
  intros Hno Hcount. unfold step_jit, step_counted.
  destruct (decide (signature st ∈ _)) as [Hin|_]; [contradiction|].
  destruct (decide (4 < S (trace_count rt))%nat) as [_|Hle]; [reflexivity | lia].
Qed.

(** When the decorated step returns, it returns what the body computes, and
    the signature of its argument has compiled code from then on. *)
Lemma step_jit_inv (rt rt' : Runtime Sig) (st : TrainStateWithBuffer E)
    (r : TrainStateWithBuffer E * Info) :
  step_jit E Sig signature rt st = (rt', Some r) ->
  step E st = Some r
  /\ signature st ∈ jit_cache rt'
  /\ (signature st ∈ jit_cache rt \/ (trace_count rt < 4)%nat).
Proof.
  unfold step_jit, step_counted.
  destruct (decide (signature st ∈ _)) as [Hin|Hno].
  - intros [= <- Hr]. auto.
  - destruct (decide (4 < S (trace_count rt))%nat) as [Hgt|Hle]; [discriminate|].
    destruct (step E st) as [r'|]; [|discriminate].
    intros [= <- <-]. split; [reflexivity|]. split; [left | right; lia].
Qed.

(** C8.  The values that [step] returns are a function of the five
    components of the training state: two invocations on states with equal
    parameters, optimizer state, SMC state, buffer state and key that both
    return give the same new state and diagnostics, whatever the trace
    counter and the cache were; and an invocation that follows a returning
    one on an equal state returns the same again, without a trace.  Whether
    an invocation returns is not a function of the state: one that has to
    trace when the module-level trace counter has reached four raises. *)
Theorem step_deterministic_up_to_trace_count :
  (forall (rt1 rt2 rt1' rt2' : Runtime Sig) (s1 s2 : TrainStateWithBuffer E) r1 r2,
     params s1 = params s2 ->
     opt_state s1 = opt_state s2 ->
     smc_state s1 = smc_state s2 ->
     buffer_state s1 = buffer_state s2 ->
     key s1 = key s2 ->
     step_jit E Sig signature rt1 s1 = (rt1', Some r1) ->
     step_jit E Sig signature rt2 s2 = (rt2', Some r2) ->
     r1 = r2)
  /\ (forall (rt rt' : Runtime Sig) (s1 s2 : TrainStateWithBuffer E) r,
        params s1 = params s2 ->
        opt_state s1 = opt_state s2 ->
        smc_state s1 = smc_state s2 ->
        buffer_state s1 = buffer_state s2 ->
        key s1 = key s2 ->
        step_jit E Sig signature rt s1 = (rt', Some r) ->
        step_jit E Sig signature rt' s2 = (rt', Some r))
  /\ (forall (rt : Runtime Sig) (s : TrainStateWithBuffer E),
        signature s ∉ jit_cache rt ->
        (4 <= trace_count rt)%nat ->
        (step_jit E Sig signature rt s).2 = None).
Proof.
  split; [|split].
  - intros rt1 rt2 rt1' rt2' s1 s2 r1 r2 Hp Ho Hm Hb Hk H1 H2.
    rewrite (state_eq E s1 s2 Hp Ho Hm Hb Hk) in H1.
    apply step_jit_inv in H1 as (H1 & _). apply step_jit_inv in H2 as (H2 & _).
    congruence.
  - intros rt rt' s1 s2 r Hp Ho Hm Hb Hk H1.
    rewrite <- (state_eq E s1 s2 Hp Ho Hm Hb Hk).
    apply step_jit_inv in H1 as (H1 & Hin & _).
    rewrite (step_jit_hit rt' s1 Hin), H1. reflexivity.
  - intros rt s Hno Hcount. rewrite (step_jit_exhausted rt s Hno Hcount). reflexivity.
Qed.

End DecoratorFacts.

(** ** The optimizer chain and the count of ignored gradients *)

Section OptimizerFacts.

Local Open Scope R_scope.
Import Jnp Optax Train.

Lemma zero_nan_entry_not_nan (x : fl) : isnan (zero_nan_entry x) = false.
Proof. destruct x as [r|]; reflexivity. Qed.

Lemma zero_nans_no_nan (g : pytree) :
  Forall (Forall (fun x => isnan x = false)) (map (map zero_nan_entry) g).
Proof.
  apply Forall_fmap, Forall_forall. intros leaf _.
  apply Forall_fmap, Forall_forall. intros x _. apply zero_nan_entry_not_nan.
Qed.

Lemma chain_update_inv {B : Type} (ts : list (GradientTransformation B))
    (g p g' : pytree) (s s' : OptState B) :
  update (chain ts) g s p = Some (g', s') ->
  exists ss ss', s = TupleState ss /\ s' = TupleState ss'
                 /\ chain_update ts ss g p = Some (g', ss').
Proof.
  destruct s as [| | |ss|]; simpl; try discriminate.
  destruct (chain_update ts ss g p) as [[u ss']|] eqn:Hc; simpl; [|discriminate].
  intros [= <- <-]. exists ss, ss'. repeat split. exact Hc.
Qed.

Lemma grad_transforms_head {B : Type} clip getattr (cfg : OptimizerConfig) lr
    (ts : list (GradientTransformation B)) :
  grad_transforms B clip getattr cfg lr = Some ts ->
  exists rest, ts = zero_nans :: rest.
Proof.
  unfold grad_transforms.
  destruct (getattr (optimizer_name cfg)) as [attribute|]; simpl; [|discriminate].
  destruct (attribute lr) as [t|]; simpl; [|discriminate].
  intros [= <-]. destruct (truthy (max_global_norm cfg)); simpl; eauto.
Qed.

Lemma get_optimizer_inv {B : Type} clip getattr schedule (cfg : OptimizerConfig)
    (n_iter_per_epoch total_n_epoch : Z) (optimizer : GradientTransformation B)
    (lr : LearningRate) :
  get_optimizer_and_step_fn B clip getattr schedule cfg n_iter_per_epoch total_n_epoch
  = Some (optimizer, lr) ->
  exists ts, grad_transforms B clip getattr cfg lr = Some ts /\ chain ts = optimizer.
Proof.
  unfold get_optimizer_and_step_fn.
  destruct (if use_schedule cfg then _ else _) as [lr'|]; simpl; [|discriminate].
  destruct (grad_transforms _ _ _ _ lr') as [ts|] eqn:Hts; simpl; [|discriminate].
  intros [= <- <-]. eauto.
Qed.

Variable E : Env.

(** While the optimizer state stays a tuple, no update writes the key
    ["ignored_grad_count"]. *)
Lemma scan_loop_no_ignored_grad_count :
  (forall g s p g' s', update (optimizer E) g s p = Some (g', s') ->
                       exists ss', s' = TupleState ss') ->
  forall (batches : list (Array E * vec)) (c c' : pytree * OptState (BaseState E))
         (outs : list (Info * vec * vec)) ss,
    c.2 = TupleState ss ->
    scan_loop (one_gradient_update E) c batches = Some (c', outs) ->
    Forall (fun i : Info => i !! "ignored_grad_count" = None) outs.*1.*1.
Proof.
  intros Hopt. induction batches as [|b bs IH]; intros c c' outs ss Hc; simpl.
  - intros [= <- <-]. constructor.
  - destruct (one_gradient_update E c b) as [[c1 [[info lwa] lq]]|] eqn:H1; simpl; [|discriminate].
    destruct (scan_loop (one_gradient_update E) c1 bs) as [[c2 ys]|] eqn:H2; simpl; [|discriminate].
    intros [= <- <-].
    destruct (one_gradient_update_inv E _ _ _ _ _ _ H1) as (loss & _ & Hg & _ & _ & _ & Hk).
    rewrite Hc in Hk. simpl. constructor; [exact Hk|].
    unfold gradient_step in Hg.
    destruct (update (optimizer E) _ c.2 c.1) as [[u o']|] eqn:Hu; simpl in Hg; [|discriminate].
    injection Hg as <-. destruct (Hopt _ _ _ _ _ Hu) as [ss' ->].
    eapply IH; [|exact H2]. reflexivity.
Qed.

Lemma update_info_loop_None (infos : list Info) (k : string) (n : nat) :
  Forall (fun i : Info => i !! k = None) infos ->
  update_info_loop ∅ infos n !! k = None.
Proof.
  intros Hall. unfold update_info_loop.
  assert (Hgen : forall (l : list nat) (acc : Info), acc !! k = None ->
            foldl (fun info i => dict_update info (tree_index infos i)) acc l !! k = None).
  { induction l as [|i l IH]; intros acc Hacc; simpl; [exact Hacc|].
    apply IH. unfold dict_update, tree_index.
    apply lookup_union_None. split; [|exact Hacc].
    destruct (infos !! i) as [d|] eqn:Hd; simpl; [|apply lookup_empty].
    rewrite Forall_forall in Hall. apply Hall. eapply list_elem_of_lookup_2, Hd. }
  apply Hgen, lookup_empty.
Qed.

Lemma step_no_ignored_grad_count (st st' : TrainStateWithBuffer E) (info : Info) ss :
  (forall g s p g' s', update (optimizer E) g s p = Some (g', s') ->
                       exists ss', s' = TupleState ss') ->
  opt_state st = TupleState ss ->
  step E st = Some (st', info) ->
  smc_info (smc_pass_at_start E st) !! "ignored_grad_count" = None ->
  info !! "ignored_grad_count" = None.
Proof.
  intros Hopt Hs Hstep Hsmc.
  destruct (step_inv E _ _ _ Hstep) as (c' & outs & _ & Hscan & _ & _ & _ & _ & _ & ->).
  unfold dict_update. apply lookup_union_None. split; [exact Hsmc|].
  apply update_info_loop_None.
  eapply (scan_loop_no_ignored_grad_count Hopt); [|exact Hscan]. exact Hs.
Qed.

(** C6, amended.  For every optimizer configuration from which
    [get_optimizer_and_step_fn] builds an optimizer, that optimizer is a
    chain whose first transformation is the NaN-zeroing one: an update
    records which leaves held a NaN and is otherwise the update of the
    remaining transformations (clipping, parameter update) on the gradient
    with its NaN entries replaced by zero, so a NaN entry makes nothing
    fail.  The state of this optimizer is a
    tuple, at initialisation and after every update, never an
    [IgnoreNanOptState]; a training step run with it writes no
    ["ignored_grad_count"] entry: that entry can only come from the SMC
    diagnostics. *)
Theorem optimizer_zeroes_nans_first
    clip getattr schedule (cfg : OptimizerConfig) (n_iter_per_epoch total_n_epoch : Z)
    (lr : LearningRate) :
  get_optimizer_and_step_fn (BaseState E) clip getattr schedule cfg
    n_iter_per_epoch total_n_epoch
  = Some (optimizer E, lr) ->
  exists rest,
    optimizer E = chain (zero_nans :: rest)
    /\ (forall params, exists ss, init (optimizer E) params = TupleState ss)
    /\ (forall g s0 ss p,
          update (optimizer E) g (TupleState (s0 :: ss)) p
          = '(g', ss') ← chain_update rest ss (map (map zero_nan_entry) g) p;
            Some (g', TupleState (ZeroNansState (map (existsb isnan) g) :: ss')))
    /\ (forall g s p g' s',
          update (optimizer E) g s p = Some (g', s') ->
          exists s0 ss ss',
            s = TupleState (s0 :: ss)
            /\ s' = TupleState (ZeroNansState (map (existsb isnan) g) :: ss')
            /\ chain_update rest ss (map (map zero_nan_entry) g) p = Some (g', ss'))
    /\ (forall g, Forall (Forall (fun x => isnan x = false)) (map (map zero_nan_entry) g))
    /\ (forall (st st' : TrainStateWithBuffer E) (info : Info) ss,
          opt_state st = TupleState ss ->
          step E st = Some (st', info) ->
          (exists ss', opt_state st' = TupleState ss')
          /\ (smc_info (smc_pass_at_start E st) !! "ignored_grad_count" = None ->
              info !! "ignored_grad_count" = None)).
Proof.
  intros Hbuild.
  destruct (get_optimizer_inv _ _ _ _ _ _ _ _ Hbuild) as (ts & Hts & Hopt).
  destruct (grad_transforms_head _ _ _ _ _ Hts) as [rest ->].
  exists rest. split; [symmetry; exact Hopt|].
  assert (Hupd : forall g s p g' s', update (optimizer E) g s p = Some (g', s') ->
            exists s0 ss ss',
              s = TupleState (s0 :: ss)
              /\ s' = TupleState (ZeroNansState (map (existsb isnan) g) :: ss')
              /\ chain_update rest ss (map (map zero_nan_entry) g) p = Some (g', ss')).
  { intros g s p g' s' Hu. rewrite <- Hopt in Hu.
    destruct (chain_update_inv _ _ _ _ _ _ Hu) as (ss & ss' & -> & -> & Hc).
    destruct ss as [|s0 ss]; simpl in Hc; [discriminate|].
    destruct (chain_update rest ss _ p) as [[u new_ss]|] eqn:Hr; simpl in Hc; [|discriminate].
    injection Hc as <- <-. exists s0, ss, new_ss. repeat split. exact Hr. }
  assert (Htuple : forall g s p g' s', update (optimizer E) g s p = Some (g', s') ->
            exists ss', s' = TupleState ss').
  { intros g s p g' s' Hu. destruct (Hupd _ _ _ _ _ Hu) as (s0 & ss & ss' & _ & -> & _). eauto. }
  split. { intros p. rewrite <- Hopt. simpl. eauto. }
  split.
  { intros g s0 ss p. rewrite <- Hopt. simpl.
    destruct (chain_update rest ss _ p) as [[u new_ss]|]; reflexivity. }
  split; [exact Hupd|]. split; [exact zero_nans_no_nan|].
  intros st st' info ss Hs Hstep. split.
  - destruct (step_inv E _ _ _ Hstep) as (c' & outs & Hlen & Hscan & _ & Ho & _).
    destruct (scan_loop_spec E _ _ _ _ Hscan) as (_ & Hlast & _).
    rewrite Ho. clear - Hlast Htuple Hs.
    revert Hlast. generalize (length (sampled_batches E st)) as n. intros n.
    unfold carry_before. generalize (take n (sampled_batches E st)) as l. clear n.
    intros l. revert c'. induction l as [|b l IH] using rev_ind; intros c'.
    + simpl. intros [= <-]. simpl. eauto.
    + rewrite foldl_snoc.
      destruct (foldl _ _ l) as [c|]; simpl; [|discriminate].
      unfold gradient_step.
      destruct (update (optimizer E) _ c.2 c.1) as [[u o']|] eqn:Hu; simpl; [|discriminate].
      intros [= <-]. simpl. eapply Htuple, Hu.
  - apply (step_no_ignored_grad_count st st' info ss Htuple Hs Hstep).
Qed.

End OptimizerFacts.

(** ** The properties on the small instance *)

Section ScenarioFacts.

Local Open Scope R_scope.
Import Jnp Optax Train Scenario.

Lemma scenario_step_returns : exists st' info, step env state0 = Some (st', info).
Proof. eexists _, _. reflexivity. Defined.

(** The step on the small instance: the journal of the buffer shows the
    adjustment, at the sampled indices, before the addition. *)
Lemma step_buffer_protocol_witness :
  exists st' info c' outs,
    step env state0 = Some (st', info)
    /\ scan_loop (one_gradient_update env) (params state0, opt_state state0)
         [([0; 0], [0; 0]); ([0; 0], [0; 0])] = Some (c', outs)
    /\ buffer_state st'
       = [Adjusted (concat outs.*2) (concat outs.*1.*2) [0; 1; 0; 1]%nat;
          Added [1; 1] [0; 0] [0; 0]].
Proof.
  destruct scenario_step_returns as (st' & info & H).
  destruct (step_buffer_protocol env state0 st' info H) as (c' & outs & Hscan & Hbuf).
  exists st', info, c', outs. split; [exact H|]. split; [exact Hscan | exact Hbuf].
Defined.

Lemma step_smc_uses_start_params_witness :
  exists st' info,
    step env state0 = Some (st', info)
    /\ smc_state st'
       = smc_state_out (smc_forward env (params state0) (smc_state state0) (smc_key env state0))
    /\ carry_before env (params state0, opt_state state0) (sampled_batches env state0) 2
       = Some (params st', opt_state st').
Proof.
  destruct scenario_step_returns as (st' & info & H).
  destruct (step_smc_uses_start_params env state0 st' info H) as (Hsmc & _ & _ & _ & Hlast).
  exists st', info. split; [exact H|]. split; [exact Hsmc | exact Hlast].
Defined.

Lemma updates_are_sequential_witness :
  exists st' info (outs : list (Info * vec * vec)),
    step env state0 = Some (st', info)
    /\ scan_loop (one_gradient_update env) (params state0, opt_state state0)
         (sampled_batches env state0) = Some ((params st', opt_state st'), outs)
    /\ length outs = 2%nat
    /\ buffer_state st'
       = [Adjusted (concat outs.*2) (concat outs.*1.*2) [0; 1; 0; 1]%nat;
          Added [1; 1] [0; 0] [0; 0]].
Proof.
  destruct scenario_step_returns as (st' & info & H).
  destruct (updates_are_sequential env state0 st' info H)
    as (outs & Hscan & _ & Hlen & _ & Hbuf & _).
  exists st', info, outs. split; [exact H|]. split; [exact Hscan|].
  split; [exact Hlen | exact Hbuf].
Defined.

Lemma scenario_traces (count : nat) (r : TrainStateWithBuffer env * Info) :
  (count < 4)%nat ->
  step env state0 = Some r ->
  step_jit env (list nat) signature {| trace_count := count; jit_cache := [] |} state0
  = ({| trace_count := S count; jit_cache := [signature state0] |}, Some r).
Proof.
  intros Hcount Hstep.
  apply (step_jit_miss env (list nat) signature {| trace_count := count; jit_cache := [] |});
    [apply not_elem_of_nil | exact Hcount | exact Hstep].
Qed.

Lemma step_deterministic_up_to_trace_count_witness :
  exists r,
    step_jit env (list nat) signature {| trace_count := 0; jit_cache := [] |} state0
    = ({| trace_count := 1; jit_cache := [signature state0] |}, Some r)
    /\ step_jit env (list nat) signature
         {| trace_count := 1; jit_cache := [signature state0] |} state0
       = ({| trace_count := 1; jit_cache := [signature state0] |}, Some r).
Proof.
  destruct scenario_step_returns as (st' & info & H).
  exists (st', info).
  assert (H1 := scenario_traces 0 (st', info) ltac:(lia) H).
  split; [exact H1|].
  destruct (step_deterministic_up_to_trace_count env (list nat) signature) as (_ & Hagain & _).
  apply (Hagain {| trace_count := 0; jit_cache := [] |} _ state0 state0 (st', info));
    try reflexivity. exact H1.
Defined.

(** C8, as the claim states it, fails: the module-level trace counter
    decides whether [step] returns.  The step function is built five times
    in one process and each one is called once, on the same training
    state: the first four calls return, with equal results, and the fifth
    raises. *)
Lemma fifth_build_of_step_raises :
  exists r rt1 rt2 rt3 rt4 rt5,
    step_jit env (list nat) signature {| trace_count := 0; jit_cache := [] |} state0
    = (rt1, Some r)
    /\ step_jit env (list nat) signature (rebuilt rt1) state0 = (rt2, Some r)
    /\ step_jit env (list nat) signature (rebuilt rt2) state0 = (rt3, Some r)
    /\ step_jit env (list nat) signature (rebuilt rt3) state0 = (rt4, Some r)
    /\ step_jit env (list nat) signature (rebuilt rt4) state0 = (rt5, None).
Proof.
  destruct scenario_step_returns as (st' & info & H).
  exists (st', info). eexists _, _, _, _, _.
  split; [apply (scenario_traces 0 _ ltac:(lia) H)|].
  split; [apply (scenario_traces 1 _ ltac:(lia) H)|].
  split; [apply (scenario_traces 2 _ ltac:(lia) H)|].
  split; [apply (scenario_traces 3 _ ltac:(lia) H)|].
  apply (step_jit_exhausted env (list nat) signature
           {| trace_count := 4; jit_cache := [] |} state0);
    [apply not_elem_of_nil | simpl; lia].
Qed.

Lemma info_keeps_last_update_only_witness :
  exists st' info merged loss,
    step env state0 = Some (st', info)
    /\ info = dict_update merged (smc_info (smc_pass_at_start env state0))
    /\ merged !! "loss" = Some (MFloat (Some (Finite loss))).
Proof.
  destruct scenario_step_returns as (st' & info & H).
  destruct (info_keeps_last_update_only env state0 st' info H)
    as (merged & c & b & c' & loss & last_info & lwa & lq & Hinfo & _ & _ & _ & _ & Hloss & _).
  { simpl. lia. }
  exists st', info, merged, loss. split; [exact H|]. split; [exact Hinfo | exact Hloss].
Defined.

Lemma optimizer_zeroes_nans_first_witness :
  exists rest, optimizer env = chain (zero_nans :: rest).
Proof.
  destruct (optimizer_zeroes_nans_first env no_clip getattr warmup_cosine_decay_schedule
              config 1 1 (ConstantLR 1))
    as (rest & Hopt & _); [reflexivity|].
  exists rest. exact Hopt.
Defined.

(** C6, as the claim states it, fails: the optimizer is the one that
    [get_optimizer_and_step_fn] builds, the gradient of the loss has a NaN
    entry, the step returns, and its diagnostics have no
    ["ignored_grad_count"] entry. *)
Lemma ignored_grad_count_not_reported :
  get_optimizer_and_step_fn unit no_clip getattr warmup_cosine_decay_schedule config 1 1
  = Some (optimizer env, ConstantLR 1)
  /\ fab_loss_grad env (params state0) [0; 0] [0; 0] = [[NaN; Some (Finite 1)]]
  /\ exists st' info,
       step env state0 = Some (st', info)
       /\ info !! "ignored_grad_count" = None.
Proof.
  split; [reflexivity|]. split; [reflexivity|].
  eexists _, _. split; reflexivity.
Qed.

End ScenarioFacts.

(** * Further properties *)

(** ** The FAB loss: failure, clipping, and the maximum-likelihood limit *)

Section FabLossMore.

Local Open Scope R_scope.
Import Jnp Optax Train FabLoss TrainAndEval.

Variables Params Array : Type.
Variable rank : Array -> nat.
Variable log_q_fn_apply : Params -> Array -> vec.

Lemma broadcast2_Some_length f (a b d : vec) :
  broadcast2 f a b = Some d ->
  (length a = length b /\ length d = length a)
  \/ (length a = 1%nat /\ length a <> length b /\ length d = length b)
  \/ (length b = 1%nat /\ length a <> length b /\ length d = length a).
Proof.
  unfold broadcast2. destruct (decide (length a = length b)) as [Hl|Hl].
  - intros [= <-]. left. rewrite length_zip_with. lia.
  - destruct a as [|a0 [|a1 a']].
    + destruct b as [|b0 [|b1 b']]; try discriminate.
      intros [= <-]. right. right. simpl in *. auto.
    + intros [= <-]. right. left. rewrite length_map. simpl in *. auto.
    + destruct b as [|b0 [|b1 b']]; try discriminate.
      intros [= <-]. right. right. simpl in *. rewrite ?length_map. auto.
Qed.

Lemma broadcast2_None_length f (a b : vec) :
  broadcast2 f a b = None ->
  length a <> length b /\ length a <> 1%nat /\ length b <> 1%nat.
Proof.
  unfold broadcast2. destruct (decide (length a = length b)) as [Hl|Hl]; [discriminate|].
  destruct a as [|a0 [|a1 a']]; [| discriminate |];
    destruct b as [|b0 [|b1 b']]; try discriminate; simpl in *; intros _; lia.
Qed.

Lemma fab_loss_defined (params : Params) (x : Array) (log_q_old : vec) (alpha w_clip : R) :
  rank x = 4%nat ->
  length log_q_old = length (log_q_fn_apply params x) \/ length log_q_old = 1%nat ->
  exists loss log_w_adjust,
    fab_loss_buffer_samples Params Array rank params x log_q_old alpha log_q_fn_apply w_clip
    = Some (loss, (log_w_adjust, log_q_fn_apply params x)).
Proof.
  intros Hr Hlen. unfold fab_loss_buffer_samples, assert_rank, stop_gradient.
  destruct (decide (rank x = 4%nat)) as [_|?]; [|contradiction]. simpl.
  destruct (broadcast2 Rminus (log_q_fn_apply params x) log_q_old) as [d|] eqn:Hb; simpl.
  - pose proof (broadcast2_Some_length _ _ _ _ Hb) as Hd.
    unfold assert_equal_shape, scale. rewrite length_map.
    destruct (decide _) as [_|He]; simpl; [eauto | lia].
  - pose proof (broadcast2_None_length _ _ _ Hb). lia.
Qed.

(** [fab_loss_buffer_samples] returns exactly when the batch has rank 4 and
    the stored log-densities are as many as the samples or a single one
    (which is broadcast); in every other case an assertion or the
    broadcasting fails. *)
Theorem fab_loss_returns_iff (params : Params) (x : Array) (log_q_old : vec)
    (alpha w_clip : R) :
  is_Some (fab_loss_buffer_samples Params Array rank params x log_q_old alpha
             log_q_fn_apply w_clip)
  <-> rank x = 4%nat
      /\ (length log_q_old = length (log_q_fn_apply params x)
          \/ length log_q_old = 1%nat).
Proof.
  unfold fab_loss_buffer_samples, assert_rank, stop_gradient.
  destruct (decide (rank x = 4%nat)) as [Hr|Hr]; simpl.
  2:{ split; [intros [? ?]; discriminate | intros [? _]; contradiction]. }
  set (lq := log_q_fn_apply params x).
  destruct (broadcast2 Rminus lq log_q_old) as [d|] eqn:Hb; simpl.
  - unfold assert_equal_shape, scale. rewrite length_map.
    pose proof (broadcast2_Some_length _ _ _ _ Hb) as Hd.
    destruct (decide (length lq = length d)) as [He|He]; simpl.
    + split; [|eauto]. intros _. split; [exact Hr|]. lia.
    + split; [intros [? ?]; discriminate|]. intros [_ H]. lia.
  - pose proof (broadcast2_None_length _ _ _ Hb) as Hd.
    split; [intros [? ?]; discriminate|]. intros [_ H]. lia.
Qed.

Lemma sum_weighted_bound (c : R) (ws qs : vec) :
  Forall (fun w => 0 <= w <= c) ws ->
  length ws = length qs ->
  Rabs (sum (zip_with Rmult ws qs)) <= c * sum (map Rabs qs).
Proof.
  intros Hall. revert qs. induction Hall as [|w ws [Hw0 Hwc] _ IH]; intros [|q qs] Hlen;
    simpl in Hlen; try discriminate.
  - simpl. rewrite Rabs_R0. lra.
  - change (zip_with Rmult (w :: ws) (q :: qs)) with (w * q :: zip_with Rmult ws qs).
    change (sum (w * q :: zip_with Rmult ws qs)) with (w * q + sum (zip_with Rmult ws qs)).
    change (sum (map Rabs (q :: qs))) with (Rabs q + sum (map Rabs qs)).
    specialize (IH qs ltac:(lia)).
    pose proof (Rabs_triang (w * q) (sum (zip_with Rmult ws qs))) as Ht.
    rewrite Rabs_mult, (Rabs_pos_eq w Hw0) in Ht.
    pose proof (Rabs_pos q) as Hq. nra.
Qed.

Lemma clip_max_vexp_bounds (c : R) (v : vec) :
  0 < c -> Forall (fun w => 0 <= w <= c) (clip_max c (vexp v)).
Proof.
  intros Hc. unfold clip_max, vexp. rewrite map_map.
  apply Forall_fmap, Forall_forall. intros t _. simpl. split.
  - apply Rmin_glb; [left; apply exp_pos | lra].
  - apply Rmin_r.
Qed.

Lemma mean_abs_bound (c a b : R) (n : nat) :
  (0 < n)%nat -> Rabs a <= c * b -> Rabs (- (a / INR n)) <= c * (b / INR n).
Proof.
  intros Hpos Hab. rewrite Rabs_Ropp.
  assert (Hn : 0 < INR n) by (apply lt_0_INR; exact Hpos).
  unfold Rdiv. rewrite Rabs_mult, (Rabs_pos_eq (/ INR n)).
  - assert (Hi : 0 < / INR n) by (apply Rinv_0_lt_compat; exact Hn). nra.
  - left. apply Rinv_0_lt_compat. exact Hn.
Qed.

(** The clipping bounds the loss: on a batch that is not empty and with a
    positive clipping level, the loss returned is at most [w_adjust_clip]
    times the mean absolute log-density of the batch, however stale the
    stored log-densities.  (On an empty batch the loss is the mean of an
    empty array, NaN, and bounded by nothing.) *)
Theorem fab_loss_bounded_by_clip (params : Params) (x : Array) (log_q_old : vec)
    (alpha w_clip loss : R) (log_w_adjust log_q : vec) :
  fab_loss_buffer_samples Params Array rank params x log_q_old alpha log_q_fn_apply w_clip
  = Some (loss, (log_w_adjust, log_q)) ->
  (0 < length log_q)%nat ->
  0 < w_clip ->
  Rabs loss <= w_clip * mean (map Rabs log_q).
Proof.
  unfold fab_loss_buffer_samples, assert_rank, stop_gradient.
  destruct (decide (rank x = 4%nat)) as [Hr|Hr]; simpl; [|discriminate].
  destruct (broadcast2 Rminus _ log_q_old) as [d|] eqn:Hb; simpl; [|discriminate].
  unfold assert_equal_shape.
  destruct (decide _) as [He|He]; simpl; [|discriminate].
  intros [= <- <- <-] Hne Hc. unfold mean.
  rewrite length_zip_with, length_map.
  unfold clip_max at 2, vexp at 2. rewrite !length_map, <- He, Nat.min_id.
  apply mean_abs_bound; [exact Hne|]. apply sum_weighted_bound.
  - apply clip_max_vexp_bounds. exact Hc.
  - unfold clip_max, vexp. rewrite !length_map. symmetry. exact He.
Qed.

Lemma scale_zero (d : vec) : scale (1 - 1) d = replicate (length d) 0.
Proof.
  induction d as [|t d IH]; simpl; [reflexivity|]. f_equal; [lra | exact IH].
Qed.

Lemma zip_with_ones (c : R) (q : vec) :
  1 <= c -> zip_with Rmult (clip_max c (vexp (replicate (length q) 0))) q = q.
Proof.
  intros Hc. induction q as [|t q IH]; simpl; [reflexivity|].
  f_equal; [|exact IH]. rewrite exp_0, Rmin_left by exact Hc. lra.
Qed.

(** With [alpha = 1] and a clipping level of at least one, the FAB loss on
    buffer samples is the maximum-likelihood loss of [ml_loss_fn] on the
    same batch, and the recorded log-weight adjustment is zero for every
    sample. *)
Theorem fab_loss_alpha_one_is_ml_loss (params : Params) (x : Array) (log_q_old : vec)
    (w_clip : R) :
  rank x = 4%nat ->
  length log_q_old = length (log_q_fn_apply params x) \/ length log_q_old = 1%nat ->
  1 <= w_clip ->
  fab_loss_buffer_samples Params Array rank params x log_q_old 1 log_q_fn_apply w_clip
  = Some ((ml_loss_fn params x log_q_fn_apply).1,
          (replicate (length (log_q_fn_apply params x)) 0, log_q_fn_apply params x)).
Proof.
  intros Hr Hlen Hc.
  destruct (fab_loss_defined params x log_q_old 1 w_clip Hr Hlen) as (loss & lwa & Hsome).
  rewrite Hsome. revert Hsome.
  unfold fab_loss_buffer_samples, assert_rank, stop_gradient.
  destruct (decide (rank x = 4%nat)) as [_|?]; simpl; [|discriminate].
  destruct (broadcast2 Rminus _ log_q_old) as [d|] eqn:Hb; simpl; [|discriminate].
  unfold assert_equal_shape.
  destruct (decide _) as [He|He]; simpl; [|discriminate].
  unfold scale in He. rewrite length_map in He.
  intros [= <- <-]. rewrite scale_zero, <- He, zip_with_ones by exact Hc.
  reflexivity.
Qed.

End FabLossMore.

(** ** The effective sample size: range and invariance *)

Section EssMore.

Local Open Scope R_scope.
Import Jnp Eval.

Lemma sum_exp_pos (m : R) (v : vec) :
  v <> [] -> 0 < sum (map (fun x => exp (x - m)) v).
Proof.
  induction v as [|x v IH]; [congruence|]. intros _.
  change (0 < exp (x - m) + sum (map (fun x => exp (x - m)) v)).
  pose proof (exp_pos (x - m)) as Hx.
  destruct v as [|y v]; [simpl; lra|].
  specialize (IH ltac:(discriminate)). lra.
Qed.

Lemma sum_map_div (s : R) (u : vec) :
  sum (map (fun t => t / s) u) = sum u / s.
Proof.
  induction u as [|t u IH]; simpl; [unfold Rdiv; lra|].
  rewrite IH. unfold Rdiv. lra.
Qed.

(** The softmax weights are non-negative and add up to one. *)
Lemma softmax_nonneg (v : vec) : Forall (fun w => 0 <= w) (softmax v).
Proof.
  destruct v as [|x v]; [constructor|].
  unfold softmax. set (u := map _ (x :: v)).
  assert (Hs : 0 < sum u) by (apply sum_exp_pos; discriminate).
  subst u. rewrite map_map. apply Forall_fmap, Forall_forall. intros t _. simpl.
  apply Rlt_le, Rdiv_lt_0_compat; [apply exp_pos | exact Hs].
Qed.

Lemma softmax_sum (v : vec) : v <> [] -> sum (softmax v) = 1.
Proof.
  intros Hv. unfold softmax. rewrite sum_map_div.
  pose proof (sum_exp_pos (vmax v) v Hv) as Hs. field. lra.
Qed.

Lemma length_softmax (v : vec) : length (softmax v) = length v.
Proof. unfold softmax. rewrite !length_map. reflexivity. Qed.

(** For non-negative numbers, the sum of squares is at most the square of
    the sum, and the square of the sum at most the count times the sum of
    squares. *)
Lemma sum_squares_nonneg (w : vec) : 0 <= sum (map (fun t => t ^ 2) w).
Proof.
  induction w as [|t w IH]; simpl; [lra|]. pose proof (pow2_ge_0 t). simpl in *. lra.
Qed.

Lemma sum_squares_bounds (w : vec) :
  Forall (fun t => 0 <= t) w ->
  0 <= sum w
  /\ sum (map (fun t => t ^ 2) w) <= sum w ^ 2
  /\ sum w ^ 2 <= INR (length w) * sum (map (fun t => t ^ 2) w).
Proof.
  induction 1 as [|t w Ht _ IH].
  - simpl. lra.
  - destruct IH as (Hs & Hq1 & Hq2).
    pose proof (sum_squares_nonneg w) as Hq0.
    change (sum (t :: w)) with (t + sum w).
    change (sum (map (fun t => t ^ 2) (t :: w))) with (t ^ 2 + sum (map (fun t => t ^ 2) w)).
    change (length (t :: w)) with (S (length w)). rewrite S_INR.
    set (s := sum w) in *. set (q := sum (map (fun t => t ^ 2) w)) in *.
    set (n := INR (length w)) in *.
    assert (Hn : 0 <= n) by (subst n; apply pos_INR).
    split; [lra|]. split; [nra|].
    destruct (Req_dec n 0) as [Hz|Hnz].
    + assert (s ^ 2 <= 0) by (rewrite Hz in Hq2; lra).
      assert (s = 0) by nra. nra.
    + assert (0 < n) by lra.
      assert (Hsq : 0 <= (n * t - s) ^ 2) by apply pow2_ge_0.
      assert (Hkey : 0 <= n * (n * t ^ 2 - 2 * t * s + q)) by nra.
      assert (0 <= n * t ^ 2 - 2 * t * s + q) by nra.
      nra.
Qed.

(** The effective sample size reported by [eval_fn] lies between the
    reciprocal of the particle count and one, whatever the log-weights. *)
Theorem ess_range (log_w : vec) :
  log_w <> [] ->
  / INR (length log_w) <= ess log_w <= 1.
Proof.
  intros Hv. unfold ess.
  pose proof (sum_squares_bounds (softmax log_w) (softmax_nonneg log_w)) as (_ & Hq1 & Hq2).
  rewrite softmax_sum, length_softmax in * by exact Hv.
  set (q := sum (map (fun w => w ^ 2) (softmax log_w))) in *.
  assert (Hn : 0 < INR (length log_w)).
  { apply lt_0_INR. destruct log_w; [congruence | simpl; lia]. }
  set (n := INR (length log_w)) in *.
  assert (Hq : 0 < q) by nra.
  assert (Hin : 0 < / n) by (apply Rinv_0_lt_compat; exact Hn).
  assert (Hiq : 0 < / q) by (apply Rinv_0_lt_compat; exact Hq).
  unfold Rdiv. rewrite Rmult_1_l.
  assert (H1 : 1 <= / q).
  { rewrite <- Rinv_1. apply Rinv_le_contravar; lra. }
  assert (H2 : / q <= n).
  { rewrite <- (Rinv_inv n). apply Rinv_le_contravar; [exact Hin|].
    apply (Rmult_le_reg_l n); [exact Hn|]. rewrite Rinv_r by lra. lra. }
  split.
  - nra.
  - apply (Rmult_le_reg_r n); [exact Hn|]. rewrite Rmult_assoc, Rinv_l by lra. lra.
Qed.

Lemma ess_range_witness : / INR (length [0; 1]) <= ess [0; 1] <= 1.
Proof. apply (ess_range [0; 1]). discriminate. Defined.

Lemma vmax_shift (c : R) (v : vec) :
  v <> [] -> vmax (map (fun x => x + c) v) = vmax v + c.
Proof.
  destruct v as [|x v]; [congruence|]. intros _. simpl.
  induction v as [|y v IH]; simpl; [reflexivity|].
  rewrite IH. unfold Rmax. repeat destruct (Rle_dec _ _); lra.
Qed.

Lemma softmax_shift (c : R) (v : vec) :
  softmax (map (fun x => x + c) v) = softmax v.
Proof.
  destruct (decide (v = [])) as [->|Hv]; [reflexivity|].
  unfold softmax. rewrite (vmax_shift c v Hv).
  assert (He : map (fun x => exp (x - (vmax v + c))) (map (fun x => x + c) v)
               = map (fun x => exp (x - vmax v)) v).
  { rewrite map_map. apply map_ext. intros x. f_equal. lra. }
  rewrite He. reflexivity.
Qed.

(** Importance log-weights are known up to an additive constant only, and
    the reported effective sample size does not depend on it. *)
Theorem ess_shift_invariant (c : R) (log_w : vec) :
  ess (map (fun w => w + c) log_w) = ess log_w.
Proof. unfold ess. rewrite softmax_shift, length_map. reflexivity. Qed.

End EssMore.

(** ** Batching of the evaluation set and the train/test split *)

Section DataHandling.

Import TrainAndEval.
Local Open Scope Z_scope.

Context {A : Type}.

Lemma batches_spec (b n : nat) (l : list A) :
  (b * n <= length l)%nat ->
  concat (batches b n l) = take (b * n) l
  /\ Forall (fun c => length c = b) (batches b n l)
  /\ length (batches b n l) = n.
Proof.
  revert l. induction n as [|n IH]; intros l Hl; simpl.
  - rewrite Nat.mul_0_r. simpl. rewrite take_0. repeat split. constructor.
  - destruct (IH (drop b l)) as (Hc & Hf & Hn).
    { rewrite length_drop. lia. }
    split; [|split].
    + rewrite Hc. replace (b * S n)%nat with (b + b * n)%nat by lia.
      rewrite <- take_take_drop. reflexivity.
    + constructor; [|exact Hf]. rewrite length_take. lia.
    + rewrite Hn. reflexivity.
Qed.

Lemma slice_to_in_range (l : list A) (k : Z) :
  0 <= k <= shape0 l ->
  slice_to l k = take (Z.to_nat k) l /\ shape0 (slice_to l k) = k.
Proof.
  intros Hk. unfold slice_to, shape0 in *.
  destruct (decide (k < 0)); [lia|]. split; [reflexivity|].
  rewrite length_take. lia.
Qed.

Lemma slice_to_prefix (l : list A) (k : Z) : exists m, slice_to l k = take m l.
Proof. unfold slice_to. destruct (decide (k < 0)); eauto. Qed.

(** With a requested batch size of at least one, [eval_fn] evaluates a
    non-empty test set in batches of the requested size, or of the size of
    the test set if that is smaller: the batches are the leading rows in
    order, all full, at least one, and fewer rows than one batch are left
    out. *)
Theorem eval_fn_batching_spec (x : list A) (batch_size : Z) :
  x <> [] ->
  1 <= batch_size ->
  let b := Z.min batch_size (shape0 x) in
  let kept := shape0 x - shape0 x mod b in
  exists x_batched,
    eval_fn_batching x (Some batch_size) = Some (b, x_batched)
    /\ concat x_batched = take (Z.to_nat kept) x
    /\ Forall (fun c => shape0 c = b) x_batched
    /\ shape0 x_batched = shape0 x / b
    /\ 1 <= shape0 x_batched
    /\ shape0 x - kept < b.
Proof.
  intros Hx Hbs b kept.
  assert (Hn : 1 <= shape0 x).
  { unfold shape0. destruct x; [congruence | simpl; lia]. }
  assert (Hb : 1 <= b <= shape0 x) by (subst b; lia).
  pose proof (Z.mod_pos_bound (shape0 x) b ltac:(lia)) as Hm.
  pose proof (Z.div_mod (shape0 x) b ltac:(lia)) as Hd.
  assert (Hq : 1 <= shape0 x / b) by (apply Z.div_le_lower_bound; lia).
  destruct (slice_to_in_range x kept ltac:(subst kept; lia)) as (Hs & Hlen).
  assert (Hkept : kept = b * (shape0 x / b)) by (subst kept; lia).
  assert (Hkm : kept mod b = 0).
  { rewrite Hkept, Z.mul_comm. apply Z.mod_mul. lia. }
  assert (Hkd : kept / b = shape0 x / b).
  { rewrite Hkept, Z.mul_comm. apply Z.div_mul. lia. }
  unfold eval_fn_batching, pymod. fold b.
  destruct (decide (b = 0)); [lia|]. simpl. fold kept.
  unfold reshape_batched. rewrite Hlen.
  destruct (decide (0 < b /\ kept mod b = 0)) as [_|Hno]; [|exfalso; apply Hno; lia].
  simpl. eexists. split; [reflexivity|]. rewrite Hkd.
  destruct (batches_spec (Z.to_nat b) (Z.to_nat (shape0 x / b)) (slice_to x kept))
    as (Hc & Hf & Hl).
  { apply Nat2Z.inj_le. fold (shape0 (slice_to x kept)). rewrite Hlen. lia. }
  split; [|split; [|split; [|split]]].
  - rewrite Hc, Hs. rewrite take_take.
    f_equal. lia.
  - eapply Forall_impl; [exact Hf|]. intros c Hcl. simpl in Hcl. unfold shape0. lia.
  - unfold shape0 at 1. rewrite Hl. lia.
  - unfold shape0 at 1. rewrite Hl. lia.
  - subst kept. lia.
Qed.


(** An empty test set makes [eval_fn] fail whenever a batch size is
    requested. *)
Theorem eval_fn_batching_empty (batch_size : Z) :
  eval_fn_batching (@nil A) (Some batch_size) = None.
Proof.
  unfold eval_fn_batching, pymod.
  change (shape0 (@nil A)) with 0.
  destruct (decide (Z.min batch_size 0 = 0)) as [|Hne]; [reflexivity|]. simpl.
  unfold reshape_batched.
  destruct (decide _) as [[Hpos _]|]; [lia | reflexivity].
Qed.


(** [load_dataset] splits at [train_index] and trims: the training set is
    the leading rows up to the largest multiple of the batch size not above
    [train_index], so its length is a multiple of the batch size and fewer
    than one batch is dropped; the test set is a prefix of the rows from
    [train_index] on, so no row is in both. *)
Theorem load_dataset_split_spec (dataset : list A) (train_index batch_size : Z) :
  0 <= train_index <= shape0 dataset ->
  1 <= batch_size ->
  exists train_set test_set k,
    load_dataset_split dataset train_index batch_size = Some (train_set, test_set)
    /\ train_set = take (Z.to_nat (train_index - train_index mod batch_size)) dataset
    /\ shape0 train_set = train_index - train_index mod batch_size
    /\ shape0 train_set mod batch_size = 0
    /\ train_index - batch_size < shape0 train_set <= train_index
    /\ test_set = take k (drop (Z.to_nat train_index) dataset).
Proof.
  intros Hti Hbs.
  pose proof (Z.mod_pos_bound train_index batch_size ltac:(lia)) as Hm.
  pose proof (Z.div_mod train_index batch_size ltac:(lia)) as Hd.
  pose proof (Z.div_pos train_index batch_size ltac:(lia) ltac:(lia)) as Hq.
  assert (Hle : train_index mod batch_size <= train_index) by nia.
  destruct (slice_to_in_range dataset train_index Hti) as (Hs1 & Hl1).
  unfold load_dataset_split, pymod.
  destruct (decide (batch_size = 0)); [lia|]. simpl.
  rewrite Hl1.
  destruct (slice_to_in_range (slice_to dataset train_index)
              (train_index - train_index mod batch_size)) as (Hs2 & Hl2);
    [rewrite Hl1; lia|].
  assert (Hfrom : slice_from dataset train_index = drop (Z.to_nat train_index) dataset).
  { unfold slice_from. destruct (decide (train_index < 0)); [lia | reflexivity]. }
  destruct (slice_to_prefix (slice_from dataset train_index)
              (shape0 (slice_to (slice_to dataset train_index)
                         (train_index - train_index mod batch_size))
               - shape0 (slice_from dataset train_index) mod batch_size)) as [k Hk].
  eexists _, _, k. split; [reflexivity|].
  split; [|split; [|split; [|split]]].
  - rewrite Hs2, Hs1, take_take. f_equal. lia.
  - exact Hl2.
  - rewrite Hl2.
    replace (train_index - train_index mod batch_size)
      with (train_index / batch_size * batch_size) by lia.
    apply Z.mod_mul. lia.
  - rewrite Hl2. lia.
  - rewrite Hk, Hfrom. reflexivity.
Qed.

End DataHandling.

Section DataHandlingExamples.

Import TrainAndEval.
Local Open Scope Z_scope.

Lemma eval_fn_batching_spec_witness :
  exists x_batched,
    eval_fn_batching [1; 2; 3; 4; 5] (Some 2) = Some (2, x_batched)
    /\ concat x_batched = [1; 2; 3; 4].
Proof.
  destruct (eval_fn_batching_spec [1; 2; 3; 4; 5] 2) as (xb & He & Hc & _);
    [discriminate | lia |].
  exists xb. split; [exact He | exact Hc].
Defined.

Lemma load_dataset_split_spec_witness :
  exists train_set test_set,
    load_dataset_split [1; 2; 3; 4; 5; 6; 7; 8; 9; 10] 8 3 = Some (train_set, test_set)
    /\ train_set = [1; 2; 3; 4; 5; 6].
Proof.
  destruct (load_dataset_split_spec [1; 2; 3; 4; 5; 6; 7; 8; 9; 10] 8 3)
    as (tr & te & k & He & Ht & _); [unfold shape0; simpl; lia | lia |].
  exists tr, te. split; [exact He | exact Ht].
Defined.

End DataHandlingExamples.

(** ** The optimizer chain: clean gradients, state shape, construction *)

Section OptaxMore.

Local Open Scope R_scope.
Import Jnp Optax Vocabulary.

Variable B : Type.

Lemma zero_nan_entry_clean (x : fl) : isnan x = false -> zero_nan_entry x = x.
Proof. unfold zero_nan_entry. intros ->. reflexivity. Qed.

(** On a gradient without NaN entries the NaN-zeroing transformation
    changes nothing: the updates are the gradient itself and no leaf is
    flagged, which is the state [init] gives for a tree of that shape. *)
Lemma zero_nans_identity_on_clean (g p : pytree) (s : OptState B) :
  Forall (Forall (fun x => isnan x = false)) g ->
  update zero_nans g s p = Some (g, init zero_nans g).
Proof.
  intros Hclean. simpl. f_equal. f_equal.
  - induction Hclean as [|leaf g Hleaf _ IH]; simpl; [reflexivity|].
    f_equal; [|exact IH].
    induction Hleaf as [|x leaf Hx _ IHl]; simpl; [reflexivity|].
    rewrite (zero_nan_entry_clean x Hx). f_equal. exact IHl.
  - f_equal. induction Hclean as [|leaf g Hleaf _ IH]; simpl; [reflexivity|].
    f_equal; [|exact IH].
    induction Hleaf as [|x leaf Hx _ IHl]; simpl; [reflexivity|].
    rewrite Hx. simpl. exact IHl.
Qed.

Lemma chain_update_lengths (ts : list (GradientTransformation B)) :
  Forall (never_fails B) ts ->
  forall ss g p, length ss = length ts ->
    exists g' ss', chain_update ts ss g p = Some (g', ss') /\ length ss' = length ts.
Proof.
  induction 1 as [|t ts Ht _ IH]; intros [|s ss] g p Hlen; simpl in Hlen; try discriminate.
  - simpl. eauto.
  - simpl. destruct (Ht g s p) as [[u s'] Hu]. rewrite Hu. simpl.
    destruct (IH ss u p ltac:(lia)) as (g' & ss' & Hc & Hl). rewrite Hc. simpl.
    eexists _, _. split; [reflexivity|]. simpl. lia.
Qed.

Lemma chain_update_wrong_length (ts : list (GradientTransformation B)) :
  forall ss g p, length ss <> length ts -> chain_update ts ss g p = None.
Proof.
  induction ts as [|t ts IH]; intros [|s ss] g p Hlen; simpl in *; try reflexivity.
  - congruence.
  - destruct (update t g s p) as [[u s']|]; simpl; [|reflexivity].
    rewrite IH by lia. reflexivity.
Qed.

(** The state of a chain is a tuple with one state per transformation:
    [init] gives such a tuple, and when no member raises, an update on such
    a tuple returns and gives such a tuple again, so updates can follow one
    another without end; a tuple of any other length is rejected. *)
Lemma chain_state_shape (ts : list (GradientTransformation B)) :
  let good (s : OptState B) :=
    exists ss, s = TupleState ss /\ length ss = length ts in
  (forall params, good (init (chain ts) params))
  /\ (Forall (never_fails B) ts ->
      forall g s p, good s ->
        exists g' s', update (chain ts) g s p = Some (g', s') /\ good s')
  /\ (forall g ss p, length ss <> length ts ->
        update (chain ts) g (TupleState ss) p = None).
Proof.
  intros good. split; [|split].
  - intros params. exists (map (fun t => init t params) ts). split; [reflexivity|].
    apply length_map.
  - intros Hts g s p (ss & -> & Hlen).
    destruct (chain_update_lengths ts Hts ss g p Hlen) as (g' & ss' & Hc & Hl).
    exists g', (TupleState ss'). simpl. rewrite Hc. simpl.
    split; [reflexivity|]. exists ss'. split; [reflexivity | exact Hl].
  - intros g ss p Hlen. simpl. rewrite chain_update_wrong_length by exact Hlen.
    reflexivity.
Qed.

Variable clip_by_global_norm : R -> GradientTransformation B.
Variable optax_getattr :
  string -> option (LearningRate -> option (GradientTransformation B)).
Variable warmup_cosine_decay_schedule : R -> R -> R -> Z -> Z -> option (Z -> R).


Lemma grad_transforms_cases (cfg : OptimizerConfig) (lr : LearningRate)
    (ts : list (GradientTransformation B)) :
  grad_transforms B clip_by_global_norm optax_getattr cfg lr = Some ts ->
  exists attribute t,
    optax_getattr (optimizer_name cfg) = Some attribute
    /\ attribute lr = Some t
    /\ (ts = [zero_nans; t]
        \/ exists c, ts = [zero_nans; clip_by_global_norm c; t]).
Proof.
  unfold grad_transforms.
  destruct (optax_getattr (optimizer_name cfg)) as [attribute|]; simpl; [|discriminate].
  destruct (attribute lr) as [t|] eqn:Ht; simpl; [|discriminate].
  intros [= <-]. exists attribute, t. split; [reflexivity|]. split; [exact Ht|].
  destruct (truthy (max_global_norm cfg)); simpl; eauto.
Qed.

Lemma get_optimizer_cases (cfg : OptimizerConfig)
    (n_iter_per_epoch total_n_epoch : Z) (optimizer : GradientTransformation B)
    (lr : LearningRate) :
  get_optimizer_and_step_fn B clip_by_global_norm optax_getattr
    warmup_cosine_decay_schedule cfg
    n_iter_per_epoch total_n_epoch = Some (optimizer, lr) ->
  exists attribute t,
    optax_getattr (optimizer_name cfg) = Some attribute
    /\ attribute lr = Some t
    /\ (optimizer = chain [zero_nans; t]
        \/ exists c, optimizer = chain [zero_nans; clip_by_global_norm c; t]).
Proof.
  intros Hbuild.
  destruct (get_optimizer_inv _ _ _ _ _ _ _ _ Hbuild) as (ts & Hts & <-).
  destruct (grad_transforms_cases _ _ _ Hts) as (attribute & t & Hattr & Ht & Hcases).
  exists attribute, t. split; [exact Hattr|]. split; [exact Ht|].
  destruct Hcases as [->|[c ->]]; eauto.
Qed.

(** The optimizer built by [get_optimizer_and_step_fn] does not raise in
    use, as long as clipping and the named optimizer do not: its initial
    state is a tuple with one state per transformation of the chain, and
    an update on such a tuple returns and gives such a tuple again, for any
    gradient.  A tuple of any other length is rejected. *)
Theorem built_optimizer_never_raises (cfg : OptimizerConfig)
    (n_iter_per_epoch total_n_epoch : Z) (optimizer : GradientTransformation B)
    (lr : LearningRate) :
  get_optimizer_and_step_fn B clip_by_global_norm optax_getattr
    warmup_cosine_decay_schedule cfg
    n_iter_per_epoch total_n_epoch = Some (optimizer, lr) ->
  (forall c, never_fails B (clip_by_global_norm c)) ->
  (forall attribute t,
     optax_getattr (optimizer_name cfg) = Some attribute -> attribute lr = Some t ->
     never_fails B t) ->
  exists n : nat,
    (2 <= n <= 3)%nat
    /\ let good (s : OptState B) := exists ss, s = TupleState ss /\ length ss = n in
       (forall params, good (init optimizer params))
       /\ (forall g s p, good s ->
             exists g' s', update optimizer g s p = Some (g', s') /\ good s')
       /\ (forall g ss p, length ss <> n -> update optimizer g (TupleState ss) p = None).
Proof.
  intros Hbuild Hclip Hnamed.
  destruct (get_optimizer_inv _ _ _ _ _ _ _ _ Hbuild) as (ts & Hts & <-).
  destruct (grad_transforms_cases _ _ _ Hts) as (attribute & t & Hattr & Ht & Hcases).
  assert (Hall : Forall (never_fails B) ts).
  { destruct Hcases as [->|[c ->]]; repeat constructor;
      try (intros ? ? ?; eexists; reflexivity); eauto. }
  exists (length ts). split.
  { destruct Hcases as [->|[c ->]]; simpl; lia. }
  destruct (chain_state_shape ts) as (Hinit & Hupd & Hbad).
  split; [exact Hinit|]. split; [exact (Hupd Hall) | exact Hbad].
Qed.

End OptaxMore.

(** ** The training step: when it returns, and what the SMC pass cannot touch *)

Section StepMore.

Local Open Scope R_scope.
Import Jnp Optax Train Vocabulary.

Variable E : Env.



(** The gradient updates of a step never see its SMC pass: with any other
    SMC forward pass in its place the step returns in the same cases, and
    then with the same parameters, optimizer state and key, and the same
    adjusted buffer to which the samples are added. *)
Theorem gradient_updates_ignore_smc
    (f : pytree -> SMCState E -> Key E -> SmcOutput (Array E) (SMCState E))
    (st : TrainStateWithBuffer E) :
  let E' := with_smc_forward E f in
  let st_f := with_smc_forward_state E f st in
  (is_Some (step E st) <-> is_Some (step E' st_f))
  /\ forall st1 info1 st2 info2,
       step E st = Some (st1, info1) ->
       step E' st_f = Some (st2, info2) ->
       params st1 = params st2
       /\ opt_state st1 = opt_state st2
       /\ key st1 = key st2
       /\ exists adjusted,
            buffer_state st1
            = add E (x_smc (smc_pass_at_start E st)) (log_w (smc_pass_at_start E st))
                (log_q (smc_pass_at_start E st)) adjusted
            /\ buffer_state st2
               = add E (x_smc (smc_pass_at_start E' st_f)) (log_w (smc_pass_at_start E' st_f))
                   (log_q (smc_pass_at_start E' st_f)) adjusted.
Proof.
  intros E' st_f. subst E' st_f.
  unfold step, smc_pass_at_start, smc_key. simpl.
  change (one_gradient_update (with_smc_forward E f)) with (one_gradient_update E).
  destruct (split E (key st)) as [k1 sk1]. simpl.
  destruct (sample_n_batches E sk1 (buffer_state st) (batch_size E)
              (n_updates_per_smc_forward_pass E)) as [[xb lqb] idx]. simpl.
  destruct (scan (same_carry_type E) (one_gradient_update E) (params st, opt_state st)
              (xb, lqb) (n_updates_per_smc_forward_pass E)) as [[[p o] outs]|]; simpl.
  - destruct (split E k1) as [k2 sk2]. simpl. split; [split; eauto|].
    intros st1 info1 st2 info2 [= <- <-] [= <- <-]. simpl.
    repeat split. eexists. split; reflexivity.
  - split; [split; intros [? ?]; discriminate|]. intros ? ? ? ? [=].
Qed.

Lemma chain_update_keeps_finite (ts : list (GradientTransformation (BaseState E))) :
  Forall (keeps_finite (BaseState E)) ts ->
  forall ss g p g' ss',
    finite_tree g -> chain_update ts ss g p = Some (g', ss') -> finite_tree g'.
Proof.
  induction 1 as [|t ts Ht _ IH]; intros [|s ss] g p g' ss' Hg; simpl; try discriminate.
  - intros [= <- _]. exact Hg.
  - destruct (update t g s p) as [[u s']|] eqn:Hu; simpl; [|discriminate].
    destruct (chain_update ts ss u p) as [[u' ss'']|] eqn:Hc; simpl; [|discriminate].
    intros [= <- _]. eapply IH; [|exact Hc]. eapply Ht; [exact Hg | exact Hu].
Qed.

Lemma zero_nans_finite (g : pytree) :
  no_infinity g -> finite_tree (map (map zero_nan_entry) g).
Proof.
  intros Hg. apply Forall_fmap. eapply Forall_impl; [exact Hg|].
  intros leaf Hleaf. simpl. apply Forall_fmap. eapply Forall_impl; [exact Hleaf|].
  intros x [->|[r ->]]; simpl; eexists; reflexivity.
Qed.

Lemma fl_add_finite_no_nan (a b : fl) :
  isnan a = false -> finite b -> isnan (fl_add a b) = false.
Proof. intros Ha [r ->]. destruct a as [[| |]|]; simpl in *; done. Qed.

Lemma apply_updates_finite (p u : pytree) :
  clean p -> finite_tree u -> clean (apply_updates p u).
Proof.
  unfold clean, finite_tree, apply_updates. intros Hp. revert u.
  induction Hp as [|lp p Hlp _ IH]; intros [|lu u] Hu; simpl; try constructor.
  - inversion Hu as [|? ? Hlu _]; subst. clear - Hlp Hlu. revert lu Hlu.
    induction Hlp as [|a lp Ha _ IHl]; intros [|b lu] Hlu; simpl; try constructor.
    + inversion Hlu; subst. apply fl_add_finite_no_nan; assumption.
    + inversion Hlu; subst. apply IHl. assumption.
  - inversion Hu; subst. apply IH. assumption.
Qed.

Lemma carry_fold_clean (rest : list (GradientTransformation (BaseState E))) :
  optimizer E = chain (zero_nans :: rest) ->
  Forall (keeps_finite (BaseState E)) rest ->
  (forall p x log_q_old, no_infinity (fab_loss_grad E p x log_q_old)) ->
  forall (l : list (Array E * vec)) (c c' : pytree * OptState (BaseState E)),
    foldl (fun c b => c ← c; gradient_step E c b) (Some c) l = Some c' ->
    clean c.1 -> clean c'.1.
Proof.
  intros Hopt Hrest Hgrad. induction l as [|b l IH]; intros c c'; simpl.
  - intros [= <-]. auto.
  - destruct (gradient_step E c b) as [c1|] eqn:Hg.
    + intros Hf Hc. apply (IH c1 c' Hf). revert Hg. unfold gradient_step.
      rewrite Hopt.
      destruct (update (chain (zero_nans :: rest)) _ c.2 c.1) as [[u o']|] eqn:Hu; simpl;
        [|discriminate].
      intros [= <-]. simpl. apply apply_updates_finite; [exact Hc|].
      destruct (chain_update_inv _ _ _ _ _ _ Hu) as (ss & ss' & _ & _ & Hcu).
      destruct ss as [|s0 ss]; simpl in Hcu; [discriminate|].
      destruct (chain_update rest ss _ c.1) as [[u' new_ss]|] eqn:Hr; simpl in Hcu;
        [|discriminate].
      injection Hcu as <- _.
      eapply (chain_update_keeps_finite rest Hrest); [|exact Hr].
      apply zero_nans_finite, Hgrad.
    + intros Hf. exfalso. clear - Hf. induction l as [|b' l IHl]; simpl in Hf;
        [discriminate | auto].
Qed.

(** A NaN in a gradient never reaches the parameters.  The optimizer is
    the one that [get_optimizer_and_step_fn] builds; the gradients of the
    loss have no infinite entry (an entry is finite or NaN); clipping and
    the named optimizer make finite updates out of finite updates.  Then a
    step that starts from parameters without NaN ends with parameters
    without NaN.  Without the condition on the gradients this fails: an
    infinite gradient entry passes the NaN-zeroing untouched and can bring
    the parameter to infinity and, with the opposite sign later, to NaN. *)
Theorem step_keeps_params_free_of_nan
    clip getattr schedule (cfg : OptimizerConfig) (n_iter_per_epoch total_n_epoch : Z)
    (lr : LearningRate) (st st' : TrainStateWithBuffer E) (info : Info) :
  get_optimizer_and_step_fn (BaseState E) clip getattr schedule cfg
    n_iter_per_epoch total_n_epoch
  = Some (optimizer E, lr) ->
  (forall c, keeps_finite (BaseState E) (clip c)) ->
  (forall attribute t,
     getattr (optimizer_name cfg) = Some attribute -> attribute lr = Some t ->
     keeps_finite (BaseState E) t) ->
  (forall p x log_q_old, no_infinity (fab_loss_grad E p x log_q_old)) ->
  step E st = Some (st', info) ->
  clean (params st) ->
  clean (params st').
Proof.
  intros Hbuild Hclip Hnamed Hgrad Hstep Hclean.
  destruct (get_optimizer_cases _ _ _ _ _ _ _ _ _ Hbuild)
    as (attribute & t & Hattr & Ht & Hcases).
  assert (Hrest : exists rest, optimizer E = chain (zero_nans :: rest)
                               /\ Forall (keeps_finite (BaseState E)) rest).
  { destruct Hcases as [->|[c ->]]; eexists; (split; [reflexivity|]);
      repeat constructor; eauto. }
  destruct Hrest as (rest & Hopt & Hrest).
  destruct (step_inv E _ _ _ Hstep) as (c' & outs & _ & Hscan & Hp & _).
  destruct (scan_loop_spec E _ _ _ _ Hscan) as (_ & Hlast & _).
  rewrite Hp. unfold carry_before in Hlast.
  apply (carry_fold_clean rest Hopt Hrest Hgrad _ _ _ Hlast). exact Hclean.
Qed.

Variable Sig : Type.
Context `{EqDecision Sig}.
Variable signature : TrainStateWithBuffer E -> Sig.


End StepMore.

(** ** The double-well energy: a symmetric, translation-invariant pair energy *)

Section DoubleWellMore.

Local Open Scope R_scope.
Import Jnp DoubleWell Vocabulary.

Lemma norm2_diff_sym (a b : list R) :
  norm2 (zip_with Rminus a b) = norm2 (zip_with Rminus b a).
Proof.
  unfold norm2, sum. f_equal. revert b.
  induction a as [|x a IH]; intros [|y b]; cbn -[pow]; try reflexivity.
  rewrite (IH b). ring.
Qed.

Lemma norm2_diff_self (a : list R) : norm2 (zip_with Rminus a a) = 0.
Proof.
  unfold norm2, sum. replace (foldr _ _ _) with 0; [apply sqrt_0|].
  induction a as [|x a IH]; cbn -[pow]; [reflexivity|]. rewrite <- IH. ring.
Qed.

Lemma pairwise_entry (x : ndarray) (d : list (list R)) (i j : nat) :
  get_pairwise_distances x = Some d ->
  entry d i j
  = xi ← rows x !! i; xj ← rows x !! j; Some (norm2 (zip_with Rminus xj xi)).
Proof.
  unfold get_pairwise_distances. destruct (decide _); [|discriminate].
  intros [= <-]. unfold entry. rewrite list_lookup_fmap.
  destruct (rows x !! i) as [xi|]; simpl; [|reflexivity].
  rewrite list_lookup_fmap. destruct (rows x !! j) as [xj|]; reflexivity.
Qed.

(** The matrix of pairwise distances is symmetric, has a zero diagonal and
    no negative entry. *)
Theorem pairwise_distances_symmetric (x : ndarray) (d : list (list R)) :
  get_pairwise_distances x = Some d ->
  (forall i j, entry d i j = entry d j i)
  /\ (forall i, (i < length (rows x))%nat -> entry d i i = Some 0)
  /\ (forall i j r, entry d i j = Some r -> 0 <= r).
Proof.
  intros Hd. split; [|split].
  - intros i j. rewrite !(pairwise_entry x d _ _ Hd).
    destruct (rows x !! i) as [xi|], (rows x !! j) as [xj|]; simpl; try reflexivity.
    rewrite norm2_diff_sym. reflexivity.
  - intros i Hi. rewrite (pairwise_entry x d _ _ Hd).
    destruct (lookup_lt_is_Some_2 (rows x) i Hi) as [xi Hxi]. rewrite Hxi. simpl.
    rewrite norm2_diff_self. reflexivity.
  - intros i j r. rewrite (pairwise_entry x d _ _ Hd).
    destruct (rows x !! i) as [xi|], (rows x !! j) as [xj|]; simpl; try discriminate.
    intros [= <-]. apply sqrt_pos.
Qed.

Lemma pairwise_distances_symmetric_witness :
  exists d,
    get_pairwise_distances {| shape := [2; 2]%nat; data := [0; 0; 3; 4] |} = Some d
    /\ entry d 0 1 = entry d 1 0.
Proof.
  eexists. split; [reflexivity|].
  eapply (pairwise_distances_symmetric {| shape := [2; 2]%nat; data := [0; 0; 3; 4] |}).
  reflexivity.
Defined.

Lemma chunks_lengths (k n : nat) (l : list R) :
  (k * n <= length l)%nat ->
  length (chunks k n l) = n /\ Forall (fun c => length c = k) (chunks k n l).
Proof.
  revert l. induction n as [|n IH]; intros l Hl; simpl.
  - split; [reflexivity | constructor].
  - destruct (IH (drop k l)) as (Hn & Hf); [rewrite length_drop; lia|].
    split; [lia|]. constructor; [rewrite length_take; lia | exact Hf].
Qed.

Lemma chunks_concat (k : nat) (ls : list (list R)) :
  Forall (fun c => length c = k) ls ->
  chunks k (length ls) (concat ls) = ls.
Proof.
  induction 1 as [|c ls Hc _ IH]; simpl; [reflexivity|].
  rewrite take_app_length' by (symmetry; exact Hc).
  rewrite drop_app_length' by (symmetry; exact Hc).
  rewrite IH. reflexivity.
Qed.

Lemma rows_rank_2 (x : ndarray) (n d : nat) :
  shape x = [n; d] -> rows x = chunks d n (data x).
Proof.
  intros Hs. unfold rows, unstack. rewrite Hs. simpl.
  rewrite Nat.mul_1_r.
  induction (chunks d n (data x)) as [|c cs IH]; simpl; [reflexivity|].
  f_equal. exact IH.
Qed.

Lemma zip_with_translate_diff (a b t : list R) :
  length a = length t -> length b = length t ->
  zip_with Rminus (zip_with Rplus a t) (zip_with Rplus b t) = zip_with Rminus a b.
Proof.
  revert a b. induction t as [|z t IH]; intros [|x a] [|y b] Ha Hb; simpl in *;
    try discriminate; try reflexivity.
  f_equal; [lra|]. apply IH; lia.
Qed.

(** The energy depends on the configuration through the differences of
    particle positions only: moving all particles of a configuration by
    the same vector changes neither the energy nor the log-density. *)
Theorem energy_translation_invariant (x : ndarray) (t : list R) (n d : nat) :
  shape x = [n; d] ->
  length (data x) = (n * d)%nat ->
  length t = d ->
  energy (translate t x) = energy x
  /\ log_prob_fn (translate t x) = log_prob_fn x.
Proof.
  intros Hs Hdata Ht.
  destruct (chunks_lengths d n (data x) ltac:(lia)) as (Hn & Hrows).
  rewrite <- (rows_rank_2 x n d Hs) in Hn, Hrows.
  assert (Hrt : rows (translate t x) = map (fun r => zip_with Rplus r t) (rows x)).
  { rewrite (rows_rank_2 (translate t x) n d Hs). unfold translate. simpl.
    rewrite <- Hn at 1. rewrite <- (length_map (fun r => zip_with Rplus r t) (rows x)).
    apply chunks_concat. apply Forall_fmap. eapply Forall_impl; [exact Hrows|].
    intros r Hr. simpl in *. rewrite length_zip_with. lia. }
  assert (Hdist : get_pairwise_distances (translate t x) = get_pairwise_distances x).
  { unfold get_pairwise_distances, rank. simpl.
    destruct (decide _); [|reflexivity]. f_equal. rewrite Hrt, map_map.
    apply map_ext_in. intros xi Hxi. rewrite map_map.
    apply map_ext_in. intros xj Hxj. f_equal.
    rewrite Forall_forall in Hrows.
    apply zip_with_translate_diff.
    - rewrite (Hrows xj); [lia|]. apply list_elem_of_In. exact Hxj.
    - rewrite (Hrows xi); [lia|]. apply list_elem_of_In. exact Hxi. }
  assert (He : energy (translate t x) = energy x).
  { unfold energy, energy_with. rewrite Hdist. reflexivity. }
  split; [exact He|].
  unfold log_prob_fn. simpl. rewrite He.
  destruct (decide _); [reflexivity|]. destruct (decide _); [|reflexivity].
  unfold vmap, unstack. simpl. rewrite Hs in *. simpl in *. lia.
Qed.

Lemma energy_translation_invariant_witness :
  energy (translate [5; 7] {| shape := [2; 2]%nat; data := [0; 0; 3; 4] |})
  = energy {| shape := [2; 2]%nat; data := [0; 0; 3; 4] |}.
Proof.
  apply (energy_translation_invariant {| shape := [2; 2]%nat; data := [0; 0; 3; 4] |}
           [5; 7] 2 2); reflexivity.
Defined.

End DoubleWellMore.

(** ** Initialisation: what the buffer is seeded with *)

Section InitMore.

Local Open Scope Z_scope.
Import Jnp Optax Train FabInit.

Variable I : InitEnv.

Lemma body_fn_inv (flow_params : pytree) (s s1 : SMCState (env I)) (k : Key (env I))
    (x : Array (env I)) (lw lq : vec) :
  body_fn I flow_params s k = Some (s1, (x, lw, lq)) ->
  s1 = smc_state_out (smc_forward (env I) flow_params s k)
  /\ Z.of_nat (length lw) = batch_size (env I)
  /\ Z.of_nat (length lq) = batch_size (env I).
Proof.
  unfold body_fn, assert_shape. set (out := smc_forward (env I) flow_params s k).
  destruct (decide (array_shape I (x_smc out) = [batch_size (env I); flat_event_shape I]));
    simpl; [|discriminate].
  destruct (decide ([Z.of_nat (length (log_w out))] = [batch_size (env I)])) as [Hw|];
    simpl; [|discriminate].
  destruct (decide ([Z.of_nat (length (log_q out))] = [batch_size (env I)])) as [Hq|];
    simpl; [|discriminate].
  intros [= <- <- <- <-]. repeat split; congruence.
Qed.

Lemma body_fn_scan (flow_params : pytree) (keys : list (Key (env I))) :
  forall (s s' : SMCState (env I)) (outs : list (Array (env I) * vec * vec)),
    scan_loop (body_fn I flow_params) s keys = Some (s', outs) ->
    s' = smc_state_after I flow_params s keys
    /\ length outs = length keys
    /\ Forall (fun o : Array (env I) * vec * vec =>
                 Z.of_nat (length o.1.2) = batch_size (env I)
                 /\ Z.of_nat (length o.2) = batch_size (env I)) outs.
Proof.
  induction keys as [|k keys IH]; intros s s' outs.
  - simpl. intros [= <- <-]. repeat split. constructor.
  - cbn [scan_loop].
    destruct (body_fn I flow_params s k) as [[s1 [[x lw] lq]]|] eqn:Hbody; simpl;
      [|discriminate].
    destruct (scan_loop _ s1 keys) as [[s2 ys]|] eqn:Hs; simpl; [|discriminate].
    intros [= <- <-]. destruct (IH _ _ _ Hs) as (-> & Hlen & Hall).
    destruct (body_fn_inv _ _ _ _ _ _ _ Hbody) as (-> & Hw & Hq).
    split; [reflexivity|]. split; [simpl; lia|].
    constructor; [simpl; split; assumption | exact Hall].
Qed.

Lemma length_concat_uniform (b : Z) (ls : list vec) :
  Forall (fun l => Z.of_nat (length l) = b) ls ->
  Z.of_nat (length (concat ls)) = Z.of_nat (length ls) * b.
Proof.
  induction 1 as [|l ls Hl _ IH]; simpl; [lia|].
  rewrite length_app. lia.
Qed.

(** When [init] returns for batches of at least one sample, the flow
    parameters are the freshly initialised ones, the optimizer state is the
    initial one for these parameters, and the SMC state is the one left by
    [(min_length // batch_size) + 1] forward passes, all run on these
    parameters; the buffer state is what [buffer.init] made of the samples
    of these passes, whose log-weights and log-densities are
    [n_forward_pass * batch_size] each, more than the minimum fill
    length. *)
Theorem init_spec (key0 : Key (env I)) (st : TrainStateWithBuffer (env I)) :
  init I key0 = Some st ->
  1 <= batch_size (env I) ->
  (forall k n, length (split_n I k n) = n) ->
  let '(key1, key2, key3, key4) := split4 I key0 in
  exists n_forward_pass x log_w log_q,
    Init.n_forward_pass (min_lengtht_to_sample I) (batch_size (env I)) = Some n_forward_pass
    /\ params st = flow_init I key1
    /\ opt_state st = Optax.init (optimizer (env I)) (params st)
    /\ key st = key4
    /\ smc_state st
       = smc_state_after I (params st) (smc_init I key2)
           (split_n I key3 (Z.to_nat n_forward_pass))
    /\ buffer_init I x log_w log_q = Some (buffer_state st)
    /\ Z.of_nat (length log_w) = n_forward_pass * batch_size (env I)
    /\ Z.of_nat (length log_q) = n_forward_pass * batch_size (env I)
    /\ min_lengtht_to_sample I < Z.of_nat (length log_w).
Proof.
  unfold init. destruct (split4 I key0) as [[[key1 key2] key3] key4].
  destruct (Init.n_forward_pass _ _) as [n|] eqn:Hn; simpl; [|discriminate].
  destruct (decide (n < 0)) as [|Hn0]; simpl; [discriminate|].
  destruct (scan_loop _ _ _) as [[s outs]|] eqn:Hscan; simpl; [|discriminate].
  destruct (buffer_init I _ _ _) as [b|] eqn:Hb; simpl; [|discriminate].
  intros [= <-] Hbs Hsplit. simpl.
  destruct (body_fn_scan _ _ _ _ _ Hscan) as (-> & Hlen & Hall).
  rewrite Hsplit in Hlen.
  assert (Hw : Z.of_nat (length (concat outs.*1.*2)) = n * batch_size (env I)).
  { rewrite (length_concat_uniform (batch_size (env I))).
    - rewrite !length_fmap. lia.
    - rewrite <- list_fmap_compose. apply Forall_fmap.
      eapply Forall_impl; [exact Hall|]. intros o [Ho _]. exact Ho. }
  assert (Hq : Z.of_nat (length (concat outs.*2)) = n * batch_size (env I)).
  { rewrite (length_concat_uniform (batch_size (env I))).
    - rewrite !length_fmap. lia.
    - apply Forall_fmap. eapply Forall_impl; [exact Hall|]. intros o [_ Ho]. exact Ho. }
  assert (Hlt : min_lengtht_to_sample I < n * batch_size (env I)).
  { revert Hn. unfold Init.n_forward_pass, Init.floordiv.
    destruct (decide (batch_size (env I) = 0)); simpl; [discriminate|]. intros [= <-].
    pose proof (Z.mod_pos_bound (min_lengtht_to_sample I) (batch_size (env I)) ltac:(lia)).
    pose proof (Z.div_mod (min_lengtht_to_sample I) (batch_size (env I)) ltac:(lia)).
    nia. }
  eexists n, _, _, _. split; [reflexivity|]. repeat (split; [reflexivity|]).
  split; [exact Hb|]. split; [exact Hw|]. split; [exact Hq|].
  eapply Z.lt_le_trans; [exact Hlt|]. apply Z.eq_le_incl. symmetry. exact Hw.
Qed.

End InitMore.

(** ** The local configuration of the LJ13 example *)

Section LocalConfig.

Local Open Scope Z_scope.
Import Lj13Fab Logger.

(** Under the local configuration with at least one update per SMC pass,
    the minimum fill length of the buffer is above the number of samples
    that the updates of one step draw and below its capacity; [init] seeds
    the buffer with [2 * n_updates + 2] samples, which is above the minimum
    fill length and within the capacity; and the logger is the list
    logger. *)
Theorem to_local_config_buffer_sizes (cfg : Config) :
  1 <= fab_n_updates_per_smc_forward_pass cfg ->
  let cfg' := to_local_config cfg in
  let drawn := training_batch_size cfg' * fab_n_updates_per_smc_forward_pass cfg' in
  drawn < fab_buffer_min_length cfg'
  /\ fab_buffer_min_length cfg' < fab_buffer_max_length cfg'
  /\ Init.n_seed_samples (fab_buffer_min_length cfg') (training_batch_size cfg')
     = Some (2 * fab_n_updates_per_smc_forward_pass cfg + 2)
  /\ fab_buffer_min_length cfg' < 2 * fab_n_updates_per_smc_forward_pass cfg + 2
                                <= fab_buffer_max_length cfg'
  /\ setup_logger (logger cfg') = Some ListLogger.
Proof.
  intros Hn cfg' drawn. subst cfg' drawn. simpl.
  split; [lia|]. split; [lia|]. split; [|split; [lia | reflexivity]].
  unfold Init.n_seed_samples, Init.n_forward_pass, Init.floordiv.
  destruct (decide (2 = 0)); [lia|]. simpl. f_equal.
  replace (2 * fab_n_updates_per_smc_forward_pass cfg + 1)
    with (1 + fab_n_updates_per_smc_forward_pass cfg * 2) by lia.
  rewrite Z.div_add by lia. change (1 / 2) with 0. lia.
Qed.

(** The class of the logger is chosen by the first of [wandb],
    [list_logger] and [pandas_logger] that the configuration has, and the
    choice fails exactly when it has none of them. *)
Lemma setup_logger_spec (attributes : list string) :
  (setup_logger attributes = None
   <-> ("wandb" ∉ attributes) /\ ("list_logger" ∉ attributes)
       /\ ("pandas_logger" ∉ attributes))
  /\ ("wandb" ∈ attributes -> setup_logger attributes = Some WandbLogger)
  /\ ("wandb" ∉ attributes -> "list_logger" ∈ attributes ->
      setup_logger attributes = Some ListLogger)
  /\ ("wandb" ∉ attributes -> "list_logger" ∉ attributes -> "pandas_logger" ∈ attributes ->
      setup_logger attributes = Some PandasLogger).
Proof.
  unfold setup_logger, hasattr.
  repeat case_bool_decide; repeat split; intros; try tauto; try discriminate;
    try reflexivity; try contradiction.
Qed.

End LocalConfig.

(** ** The further properties on the small instance *)

Section ScenarioMore.

Import Jnp Optax Train Vocabulary FabInit ScenarioInit Lj13Fab Scenario.

Lemma fab_loss_bounded_by_clip_witness :
  exists loss log_w_adjust log_q,
    FabLoss.fab_loss_buffer_samples unit unit (fun _ => 4%nat) tt tt [0; 1]%R 2%R
      (fun _ _ => [1; 0]%R) 10%R = Some (loss, (log_w_adjust, log_q))
    /\ (Rabs loss <= 10 * mean (map Rabs log_q))%R.
Proof.
  eexists _, _, _. split; [reflexivity|].
  eapply (fab_loss_bounded_by_clip unit unit (fun _ => 4%nat) (fun _ _ => [1; 0]%R)
            tt tt [0; 1]%R 2%R 10%R); [reflexivity | simpl; lia | lra].
Defined.

Lemma fab_loss_alpha_one_is_ml_loss_witness :
  FabLoss.fab_loss_buffer_samples unit unit (fun _ => 4%nat) tt tt [0; 1]%R 1%R
    (fun _ _ => [1; 0]%R) 10%R
  = Some ((TrainAndEval.ml_loss_fn tt tt (fun _ _ => [1; 0]%R)).1, ([0; 0]%R, [1; 0]%R)).
Proof.
  apply (fab_loss_alpha_one_is_ml_loss unit unit (fun _ => 4%nat) (fun _ _ => [1; 0]%R)
           tt tt [0; 1]%R 10%R); [reflexivity | left; reflexivity | lra].
Defined.


Lemma step_keeps_params_free_of_nan_witness :
  exists st' info, step env state0 = Some (st', info) /\ clean (params st').
Proof.
  destruct scenario_step_returns as (st' & info & H).
  exists st', info. split; [exact H|].
  assert (Hsgd : forall lr, keeps_finite unit (sgd lr)).
  { intros lr g s p g' s' Hg [= <- _].
    apply Forall_fmap. eapply Forall_impl; [exact Hg|]. intros leaf Hleaf. simpl.
    apply Forall_fmap. eapply Forall_impl; [exact Hleaf|]. intros x [r ->]; simpl.
    eexists. reflexivity. }
  apply (step_keeps_params_free_of_nan env no_clip getattr warmup_cosine_decay_schedule
           config 1 1 (ConstantLR 1) state0 st' info).
  - reflexivity.
  - intros c g s p g' s' Hg [= <- _]. exact Hg.
  - intros attribute t. unfold getattr. simpl. intros [= <-] [= <-]. apply Hsgd.
  - intros p x lqo. constructor; [|constructor].
    constructor; [left; reflexivity|].
    constructor; [right; eexists; reflexivity | constructor].
  - exact H.
  - repeat constructor.
Defined.


Lemma built_optimizer_never_raises_witness :
  exists n : nat,
    (2 <= n <= 3)%nat
    /\ forall params, exists ss,
         Optax.init (optimizer env) params = TupleState ss /\ length ss = n.
Proof.
  destruct (built_optimizer_never_raises unit no_clip getattr warmup_cosine_decay_schedule
              config 1 1
              (optimizer env) (ConstantLR 1)) as (n & Hn & Hinit & _).
  - reflexivity.
  - intros c g s p. eexists. reflexivity.
  - intros attribute t. unfold getattr. simpl. intros [= <-] [= <-] g s p.
    eexists. reflexivity.
  - exists n. split; [exact Hn | exact Hinit].
Defined.

Lemma init_spec_witness :
  exists st (log_w : vec),
    FabInit.init init_env 0%nat = Some st
    /\ Z.of_nat (length log_w) = 4%Z
    /\ (min_lengtht_to_sample init_env < Z.of_nat (length log_w))%Z.
Proof.
  assert (H : exists st, FabInit.init init_env 0%nat = Some st)
    by (eexists; reflexivity).
  destruct H as [st H].
  pose proof (init_spec init_env 0%nat st H) as Hs.
  simpl in Hs.
  destruct Hs as (n & x & lw & lq & Hn & _ & _ & _ & _ & _ & Hw & _ & Hlt).
  - lia.
  - intros k n. rewrite length_map, length_seq. reflexivity.
  - exists st, lw. split; [exact H|]. injection Hn as <-. split; [exact Hw | exact Hlt].
Defined.

Lemma to_local_config_buffer_sizes_witness :
  Init.n_seed_samples
    (fab_buffer_min_length
       (to_local_config
          {| flow_nets_type := "egnn"; flow_nets_egnn_mlp_units := [];
             flow_nets_e3gnn_mlp_units := []; flow_n_layers := 8;
             flow_nets_egnn_n_blocks := 3; flow_nets_e3gnn_n_blocks := 3;
             training_batch_size := 32; flow_type := "nice"; flow_n_aug := 1;
             fab_eval_fab_batch_size := 64; fab_n_updates_per_smc_forward_pass := 4;
             fab_buffer_min_length := 64; fab_buffer_max_length := 640;
             training_n_epoch := 100; training_save := true;
             training_plot_batch_size := 64; logger := ["wandb"] |})) 2
  = Some 10%Z.
Proof.
  eapply (to_local_config_buffer_sizes
            {| flow_nets_type := "egnn"; flow_nets_egnn_mlp_units := [];
               flow_nets_e3gnn_mlp_units := []; flow_n_layers := 8;
               flow_nets_egnn_n_blocks := 3; flow_nets_e3gnn_n_blocks := 3;
               training_batch_size := 32; flow_type := "nice"; flow_n_aug := 1;
               fab_eval_fab_batch_size := 64; fab_n_updates_per_smc_forward_pass := 4;
               fab_buffer_min_length := 64; fab_buffer_max_length := 640;
               training_n_epoch := 100; training_save := true;
               training_plot_batch_size := 64; logger := ["wandb"] |}).
  simpl. lia.
Defined.

End ScenarioMore.
